(** * rpi-sk6812-native: the pixel pipeline of [lib/ws281x-native.js]

    A shallow embedding of the JavaScript module that prepares colour data
    for an SK6812/WS281x strip: the gamma table, index remapping, the
    RGB->RGBW conversion, little-endian framing and the small lifecycle
    state machine around them.

    Conventions of the embedding:
    - a JavaScript integer number is a [Z]; the 32-bit conversions that the
      bit operators perform ([ToInt32], [ToUint32]) are written out;
    - the number of LEDs given to [init] is any JavaScript number, a
      double: [new Buffer(4 * numLeds)] throws for a size that is negative,
      [NaN] or above the limit of the runtime, and drops a fraction;
    - the floating-point arithmetic of [rgbToRgbw] is IEEE 754 binary64,
      taken from the reference implementation [SpecFloat] of the Standard
      Library (round to nearest, ties to even); the proofs that enumerate
      channel values evaluate it on the primitive doubles of the kernel,
      which [FloatAxioms] relates to [SpecFloat];
    - a [Uint32Array], a [Uint8Array] and a [Buffer] are lists, read with
      [!!] and written in place with [<[i:=v]>];
    - the module-level variables form one record, threaded through every
      exported function together with the log of calls made to the native
      bindings and of the events emitted. *)

From Stdlib Require Import ZArith List Bool String Lia SpecFloat Reals Lra.
From Stdlib Require Floats Uint63.
From stdpp Require Import base list.
Import ListNotations.

Local Open Scope string_scope.
Local Open Scope list_scope.
Local Open Scope Z_scope.

(** ** Numbers: the 32-bit integer operators of JavaScript *)

Module JS.

(** [ToInt32]: wrap to the signed 32-bit range. *)
Definition ToInt32 (z : Z) : Z := (z + 2 ^ 31) mod 2 ^ 32 - 2 ^ 31.

(** [ToUint32]: wrap to the unsigned 32-bit range. *)
Definition ToUint32 (z : Z) : Z := z mod 2 ^ 32.

(** [ToUint8]: what a store into a [Uint8Array] keeps. *)
Definition ToUint8 (z : Z) : Z := z mod 2 ^ 8.

(** [a & b] *)
Definition and (a b : Z) : Z := Z.land (ToInt32 a) (ToInt32 b).

(** [a | b] *)
Definition or (a b : Z) : Z := Z.lor (ToInt32 a) (ToInt32 b).

(** [a << n]: the count is taken modulo 32, the result wraps. *)
Definition shl (a n : Z) : Z := ToInt32 (Z.shiftl (ToInt32 a) (n mod 32)).

(** [a >> n]: arithmetic shift of the signed 32-bit value. *)
Definition sar (a n : Z) : Z := Z.shiftr (ToInt32 a) (n mod 32).

(** [a >>> n]: logical shift of the unsigned 32-bit value. *)
Definition shr (a n : Z) : Z := Z.shiftr (ToUint32 a) (n mod 32).

(** [Math.max] and [Math.min] on integer numbers. *)
Definition max3 (a b c : Z) : Z := Z.max (Z.max a b) c.
Definition min3 (a b c : Z) : Z := Z.min (Z.min a b) c.

End JS.

(** The [k]-th byte of a word, counted from the least significant one. *)
Definition byte_of (k : Z) (w : Z) : Z := (w / 2 ^ (8 * k)) mod 256.

Definition is_uint32 (w : Z) : Prop := 0 <= w < 2 ^ 32.
Definition is_byte (b : Z) : Prop := 0 <= b < 256.

(** ** The gamma table

    [_gammaTable[i] = Math.floor(Math.pow(i / 255, 1 / 0.45) * 255 + 0.5)].

    [Math.pow] has no bit-exact definition; the table is evaluated here in
    exact arithmetic, with [1 / 0.45 = 20 / 9].  For an integer [k],
    [k <= (i/255)^(20/9) * 255 + 1/2] holds exactly when
    [((2k - 1) / 510)^9 <= (i / 255)^20], an inequality between integers
    once the denominators are cleared. *)

Definition gamma_rhs (i : Z) : Z := 510 ^ 9 * i ^ 20.

(** [Math.floor] of the scaled power: count upwards from [k] while the next
    integer is still reached, that is while
    [(2 (k + 1) - 1)^9 * 255^20 <= 510^9 * i^20]
    ([scale] is [255 ^ 20] and [rhs] is [gamma_rhs i]). *)
Fixpoint gamma_floor_from (fuel : nat) (scale rhs k : Z) : Z :=
  match fuel with
  | O => k
  | S fuel' =>
      if (2 * (k + 1) - 1) ^ 9 * scale <=? rhs
      then gamma_floor_from fuel' scale rhs (k + 1)
      else k
  end.

Definition gamma_value (i : Z) : Z := gamma_floor_from 256 (255 ^ 20) (gamma_rhs i) 0.

(** [for (var i = 0; i < 256; i++) _gammaTable[i] = ...] on the zero-filled
    [new Uint8Array(256)]. *)
Fixpoint gamma_fill (n i : nat) (tbl : list Z) : list Z :=
  match n with
  | O => tbl
  | S n' => gamma_fill n' (S i) (<[i := JS.ToUint8 (gamma_value (Z.of_nat i))]> tbl)
  end.

Definition gammaTable_built : list Z := gamma_fill 256 0 (replicate 256 0).

Definition _gammaTable : list Z := Eval vm_compute in gammaTable_built.

(** A read [_gammaTable[j]] with [j] a byte. *)
Definition gamma_at (j : Z) : Z := nth (Z.to_nat j) _gammaTable 0.

(** [gammaCorrect(color)] *)
Definition gammaCorrect (color : Z) : Z :=
  JS.shr
    (JS.or
       (JS.or
          (JS.or (gamma_at (JS.and color 255))
                 (JS.shl (gamma_at (JS.and (JS.sar color 8) 255)) 8))
          (JS.shl (gamma_at (JS.and (JS.sar color 16) 255)) 16))
       (JS.shl (gamma_at (JS.and (JS.sar color 24) 255)) 24))
    0.

(** ** Numbers: binary64 arithmetic

    [rgbToRgbw] divides and multiplies JavaScript numbers that are not
    integers; they are IEEE 754 doubles. *)

Module F64.

Definition prec : Z := 53.
Definition emax : Z := 1024.

Definition t : Type := spec_float.

(** An integer number, and more generally [m * 2^e], as a double. *)
Definition of_Z (z : Z) : t := binary_normalize prec emax z 0 false.
Definition of_scaled (m e : Z) : t := binary_normalize prec emax m e false.

Definition add : t -> t -> t := SFadd prec emax.
Definition sub : t -> t -> t := SFsub prec emax.
Definition mul : t -> t -> t := SFmul prec emax.
Definition div : t -> t -> t := SFdiv prec emax.

(** [Math.max(a, b)] and [Math.min(a, b)]: [NaN] if an argument is [NaN],
    otherwise the larger (smaller) argument. *)
Definition max (a b : t) : t :=
  match SFcompare a b with
  | Some Lt => b
  | Some _ => a
  | None => S754_nan
  end.

Definition min (a b : t) : t :=
  match SFcompare a b with
  | Some Gt => b
  | Some _ => a
  | None => S754_nan
  end.

(** [a <= b], false when an argument is [NaN]. *)
Definition leb : t -> t -> bool := SFleb.

Definition max3 (a b c : t) : t := max (max a b) c.
Definition min3 (a b c : t) : t := min (min a b) c.

(** The integer part of a double, rounded toward zero; [NaN] and the
    infinities give 0, as in [ToInt32]. *)
Definition trunc (x : t) : Z :=
  match x with
  | S754_finite s m e =>
      let a := if 0 <=? e then Z.shiftl (Zpos m) e else Z.shiftr (Zpos m) (- e) in
      if s then - a else a
  | _ => 0
  end.

(** [~~x] *)
Definition double_tilde (x : t) : Z := JS.ToInt32 (JS.ToInt32 (trunc x)).

End F64.

(** ** RGB to RGBW *)

(** [let multiplier = 255 / tMax] *)
Definition multiplier (tMax : Z) : F64.t := F64.div (F64.of_Z 255) (F64.of_Z tMax).

(** [xHue = xIn * multiplier] *)
Definition hue (xIn tMax : Z) : F64.t := F64.mul (F64.of_Z xIn) (multiplier tMax).

(** [~~(((Math.max(rHue, gHue, bHue) + Math.min(rHue, gHue, bHue)) / 2 - 127.5)
        * 2 / multiplier)] *)
Definition whiteness_of (hMax hMin mult : F64.t) : Z :=
  F64.double_tilde
    (F64.div
       (F64.mul
          (F64.sub (F64.div (F64.add hMax hMin) (F64.of_Z 2)) (F64.of_scaled 255 (-1)))
          (F64.of_Z 2))
       mult).

Definition whiteness (rIn gIn bIn : Z) : Z :=
  let tMax := JS.max3 rIn gIn bIn in
  let rHue := hue rIn tMax in
  let gHue := hue gIn tMax in
  let bHue := hue bIn tMax in
  whiteness_of (F64.max3 rHue gHue bHue) (F64.min3 rHue gHue bHue) (multiplier tMax).

(** The body of the loop of [rgbToRgbw]: the value [data[i]] holds after
    the iteration that read [pixelIn] from it. *)
Definition rgbToRgbw_pixel (pixelIn : Z) : Z :=
  let rIn := JS.and (JS.sar pixelIn 16) 255 in
  let gIn := JS.and (JS.sar pixelIn 8) 255 in
  let bIn := JS.and pixelIn 255 in
  let tMax := JS.max3 rIn gIn bIn in
  if tMax =? 0 then pixelIn
  else
    let w := whiteness rIn gIn bIn in
    JS.ToUint32
      (JS.shr
         (JS.or
            (JS.or
               (JS.or (JS.shl w 24) (JS.shl (rIn - w) 16))
               (JS.shl (gIn - w) 8))
            (bIn - w))
         0).

(** [for (var i = 0; i < data.length; i++) { ... data[i] = ...; }] *)
Fixpoint rgbToRgbw_loop (n i : nat) (data : list Z) : list Z :=
  match n with
  | O => data
  | S n' =>
      let data' :=
        match data !! i with
        | Some pixelIn => <[i := rgbToRgbw_pixel pixelIn]> data
        | None => data
        end in
      rgbToRgbw_loop n' (S i) data'
  end.

Definition rgbToRgbw (data : list Z) : list Z := rgbToRgbw_loop (length data) 0 data.

(** ** Typed arrays and buffers *)

(** [a[j]] on a typed array: [None] stands for [undefined], the value read
    outside the array. *)
Definition typed_read (a : list Z) (j : Z) : option Z :=
  if j <? 0 then None else a !! Z.to_nat j.

(** The number a [Uint32Array] keeps when [v] is stored in it:
    [undefined] becomes 0. *)
Definition typed_store_value (v : option Z) : Z :=
  match v with
  | Some z => JS.ToUint32 z
  | None => 0
  end.

(** [a.map(f)] on a [Uint32Array]: a new array; [a] is left as it is. *)
Definition TypedArray_map (f : Z -> Z) (a : list Z) : list Z :=
  (fun v => JS.ToUint32 (f v)) <$> a.

(** ** Index remapping *)

(** [for (var i = 0; i < data.length; i++) data[i] = _tmpData[indexMapping[i]];] *)
Fixpoint remap_loop (n i : nat) (_tmpData indexMapping data : list Z) : list Z :=
  match n with
  | O => data
  | S n' =>
      let v :=
        match indexMapping !! i with
        | Some j => typed_read _tmpData j
        | None => None
        end in
      remap_loop n' (S i) _tmpData indexMapping (<[i := typed_store_value v]> data)
  end.

(** [remap(data, indexMapping)], with [_tmpData = Uint32Array.from(data)]. *)
Definition remap (data indexMapping : list Z) : list Z :=
  let _tmpData := data in
  remap_loop (length data) 0 _tmpData indexMapping data.

(** ** Values, exceptions and completions *)

#[local] Set Warnings "-register-all".

Inductive JSValue : Type :=
| JSUndefined
| JSNull
| JSBool (b : bool)
| JSNumber (n : Z)
| JSString (s : string)
| JSObject (props : list (string * JSValue)).

Inductive Exception : Type :=
| JsError (message : string)
| JsTypeError
| JsRangeError.

Inductive Completion (A : Type) : Type :=
| Normal (a : A)
| Throw (e : Exception).

Arguments Normal {A} a.
Arguments Throw {A} e.

(** [typeof v] *)
Definition typeof (v : JSValue) : string :=
  match v with
  | JSUndefined => "undefined"
  | JSNull => "object"
  | JSBool _ => "boolean"
  | JSNumber _ => "number"
  | JSString _ => "string"
  | JSObject _ => "object"
  end.

(** [!!v] *)
Definition ToBoolean (v : JSValue) : bool :=
  match v with
  | JSUndefined | JSNull => false
  | JSBool b => b
  | JSNumber n => negb (n =? 0)
  | JSString s => negb (String.eqb s "")
  | JSObject _ => true
  end.

Fixpoint assoc (name : string) (props : list (string * JSValue)) : option JSValue :=
  match props with
  | [] => None
  | (k, v) :: rest => if String.eqb k name then Some v else assoc name rest
  end.

(** [v.name]: a [TypeError] on [undefined] and [null], [undefined] for a
    property that is not there. *)
Definition get_prop (v : JSValue) (name : string) : Completion JSValue :=
  match v with
  | JSUndefined | JSNull => Throw JsTypeError
  | JSObject props =>
      match assoc name props with
      | Some x => Normal x
      | None => Normal JSUndefined
      end
  | _ => Normal JSUndefined
  end.

(** [v === c] for a constant [c] that is a number, [undefined] or a
    boolean; an object is never identical to one of these. *)
Definition strict_equals (v c : JSValue) : bool :=
  match v, c with
  | JSUndefined, JSUndefined => true
  | JSNull, JSNull => true
  | JSBool a, JSBool b => Bool.eqb a b
  | JSNumber a, JSNumber b => a =? b
  | JSString a, JSString b => String.eqb a b
  | _, _ => false
  end.

(** ** The node [Buffer] *)

(** A buffer of [size] bytes filled with zeros (as node fills a new
    buffer since version 8). *)
Definition Buffer_alloc (size : nat) : list Z := replicate size 0.

(** [new Buffer(size)] for a number [size].  Node checks
    [size >= 0 && size <= kMaxLength] and throws a [RangeError] when that
    fails, so also for [NaN]; [kMaxLength] is the largest buffer the
    runtime grants.  Otherwise the buffer has [size] bytes, a fraction
    being dropped. *)
Definition Buffer_new (kMaxLength : Z) (size : F64.t) : Completion (list Z) :=
  if F64.leb (F64.of_Z 0) size && F64.leb size (F64.of_Z kMaxLength)
  then Normal (Buffer_alloc (Z.to_nat (F64.trunc size)))
  else Throw JsRangeError.

(** [buf.writeUInt32LE(value, offset)]: a [RangeError] when the value is
    not an unsigned 32-bit integer or the four bytes do not fit. *)
Definition writeUInt32LE (buf : list Z) (value : Z) (offset : nat) : Completion (list Z) :=
  if negb ((0 <=? value) && (value <? 2 ^ 32)) then Throw JsRangeError
  else if negb (offset + 4 <=? length buf)%nat then Throw JsRangeError
  else
    Normal
      (<[(offset + 3)%nat := byte_of 3 value]>
         (<[(offset + 2)%nat := byte_of 2 value]>
            (<[(offset + 1)%nat := byte_of 1 value]>
               (<[offset := byte_of 0 value]> buf)))).

(** [for (var i = 0; i < data.length; i++) _outputBuffer.writeUInt32LE(data[i], 4 * i);]
    The buffer as the loop leaves it, and how the loop ended.  A call on
    the [null] buffer and a value that is not a number are [TypeError]s. *)
Fixpoint encode_loop (n i : nat) (data : list Z) (buf : option (list Z))
  : option (list Z) * Completion unit :=
  match n with
  | O => (buf, Normal tt)
  | S n' =>
      match buf with
      | None => (buf, Throw JsTypeError)
      | Some b =>
          match data !! i with
          | None => (buf, Throw JsTypeError)
          | Some value =>
              match writeUInt32LE b value (4 * i) with
              | Normal b' => encode_loop n' (S i) data (Some b')
              | Throw e => (buf, Throw e)
              end
          end
      end
  end.

Definition encode (data : list Z) (buf : option (list Z)) : option (list Z) * Completion unit :=
  encode_loop (length data) 0 data buf.

(** ** Loading the native bindings *)

(** What [getNativeBindings] reads from its environment: [process.getuid]
    ([None] when the function does not exist, otherwise the number it
    returns), [process.arch], [process.platform], and the outcome of
    reading [/proc/cpuinfo] and matching it against
    [/hardware\s*:\s*(bcm[0-9]{4})/i]: an exception of [readFileSync], no
    match ([None]) or the text of the captured group; and the outcome of
    [require('./binding/rpi_ws281x.node')]: the addon is loaded, or the
    exception [require] throws when it is missing or fails to load. *)
Record Process : Type := mkProcess {
  process_getuid : option Z;
  process_arch : string;
  process_platform : string;
  cpuinfo_socFamily : Completion (option string);
  binding_load : Completion unit
}.

(** The three messages of [console.warn]. *)
Inductive Warning : Type :=
| WarnNotRoot
| WarnNotRaspberryPi
| WarnUnknownVersion.

(** The object returned: the stub (with [STRIP_TYPES: {}]) or the native
    module, as [require('./binding/rpi_ws281x.node')] gives it. *)
Inductive Bindings : Type :=
| StubBindings
| NativeBindings.

(** [c.toLowerCase()] for a character of a captured group, which holds
    ASCII letters and digits. *)
Definition ascii_toLowerCase (c : Ascii.ascii) : Ascii.ascii :=
  let n := Ascii.nat_of_ascii c in
  if ((65 <=? n) && (n <=? 90))%nat then Ascii.ascii_of_nat (n + 32) else c.

Fixpoint toLowerCase (s : string) : string :=
  match s with
  | EmptyString => EmptyString
  | String c rest => String (ascii_toLowerCase c) (toLowerCase rest)
  end.

(** [var raspberryVersion = (function () { ... }())], given the match. *)
Definition raspberryVersion (socFamily : option string) : Z :=
  match socFamily with
  | None => 0
  | Some soc =>
      let s := toLowerCase soc in
      if String.eqb s "bcm2708" then 1
      else if String.eqb s "bcm2835" then 1
      else if String.eqb s "bcm2709" then 2
      else 0
  end.

(** [function getNativeBindings()]: the warnings printed and the object
    returned, or the exception of [readFileSync] or of [require]. *)
Definition getNativeBindings (process : Process) : list Warning * Completion Bindings :=
  let not_root :=
    match process_getuid process with
    | None => true
    | Some uid => negb (uid =? 0)
    end in
  if not_root then ([WarnNotRoot], Normal StubBindings)
  else if negb (String.eqb (process_arch process) "arm")
          && negb (String.eqb (process_platform process) "linux")
  then ([WarnNotRaspberryPi], Normal StubBindings)
  else
    match cpuinfo_socFamily process with
    | Throw e => ([], Throw e)
    | Normal socFamily =>
        if raspberryVersion socFamily =? 0
        then ([WarnUnknownVersion], Normal StubBindings)
        else
          match binding_load process with
          | Normal _ => ([], Normal NativeBindings)
          | Throw e => ([], Throw e)
          end
    end.

(** ** The module state and its collaborators *)

(** A call made to the native bindings, with what was passed. *)
Inductive BindingCall : Type :=
| Binit (numLeds : F64.t) (options : JSValue)
| Brender (frame : option (list Z))
| BsetBrightness (brightness : Z)
| Breset.

(** The module-level variables ([None] is [null]; the two flags start as
    [null], which every use reads as false), the calls received by the
    bindings and the events emitted, oldest first. *)
Record Module : Type := mkModule {
  _isInitialized : bool;
  _indexMapping : option (list Z);
  _outputBuffer : option (list Z);
  _useGammaCorrection : bool;
  _rgbToRgbw : bool;
  bindings_calls : list BindingCall;
  emitted : list (string * list Z)
}.

Definition fresh : Module :=
  {| _isInitialized := false;
     _indexMapping := None;
     _outputBuffer := None;
     _useGammaCorrection := false;
     _rgbToRgbw := false;
     bindings_calls := [];
     emitted := [] |}.

Definition set_isInitialized (b : bool) (m : Module) : Module :=
  mkModule b (_indexMapping m) (_outputBuffer m) (_useGammaCorrection m) (_rgbToRgbw m)
           (bindings_calls m) (emitted m).

Definition set_indexMapping (x : option (list Z)) (m : Module) : Module :=
  mkModule (_isInitialized m) x (_outputBuffer m) (_useGammaCorrection m) (_rgbToRgbw m)
           (bindings_calls m) (emitted m).

Definition set_outputBuffer (x : option (list Z)) (m : Module) : Module :=
  mkModule (_isInitialized m) (_indexMapping m) x (_useGammaCorrection m) (_rgbToRgbw m)
           (bindings_calls m) (emitted m).

Definition set_useGammaCorrection (b : bool) (m : Module) : Module :=
  mkModule (_isInitialized m) (_indexMapping m) (_outputBuffer m) b (_rgbToRgbw m)
           (bindings_calls m) (emitted m).

Definition set_rgbToRgbw (b : bool) (m : Module) : Module :=
  mkModule (_isInitialized m) (_indexMapping m) (_outputBuffer m) (_useGammaCorrection m) b
           (bindings_calls m) (emitted m).

(** [bindings.f(...)] *)
Definition call_bindings (c : BindingCall) (m : Module) : Module :=
  mkModule (_isInitialized m) (_indexMapping m) (_outputBuffer m) (_useGammaCorrection m)
           (_rgbToRgbw m) (bindings_calls m ++ [c]) (emitted m).

(** [this.emit(name, data)] *)
Definition emit (name : string) (data : list Z) (m : Module) : Module :=
  mkModule (_isInitialized m) (_indexMapping m) (_outputBuffer m) (_useGammaCorrection m)
           (_rgbToRgbw m) (bindings_calls m) (emitted m ++ [(name, data)]).

(** A statement sequence over the module state that may throw: the state
    reached is kept when it does. *)
Definition M (A : Type) : Type := Module -> Module * Completion A.

Definition ret {A} (a : A) : M A := fun m => (m, Normal a).
Definition throw {A} (e : Exception) : M A := fun m => (m, Throw e).
Definition lift {A} (c : Completion A) : M A := fun m => (m, c).
Definition modify (f : Module -> Module) : M unit := fun m => (f m, Normal tt).
Definition read {A} (f : Module -> A) : M A := fun m => (m, Normal (f m)).

Definition bind {A B} (c : M A) (k : A -> M B) : M B :=
  fun m =>
    match c m with
    | (m', Normal a) => k a m'
    | (m', Throw e) => (m', Throw e)
    end.

Notation "x <- c ;; k" := (bind c (fun x => k))
  (at level 100, c at next level, right associativity).
Notation "c ;;; k" := (bind c (fun _ => k))
  (at level 100, right associativity).

Definition not_initialized_render : Exception :=
  JsError "render called before initialization.".
Definition not_initialized_setBrightness : Exception :=
  JsError "setBrightness called before initialization.".

(** The error of an operation invoked before initialization. *)
Definition NotInitializedError (e : Exception) : Prop :=
  e = not_initialized_render \/ e = not_initialized_setBrightness.

Section Pipeline.

(** [ws281x.STRIP_TYPES.SK6812W], exported by the native bindings: a
    number, or [undefined] ([None]) with the stub that replaces the
    bindings off the target platform. *)
Variable SK6812W : option Z.

(** [buffer.kMaxLength] of the node that runs the module. *)
Variable kMaxLength : Z.

Definition STRIP_TYPES_SK6812W : JSValue :=
  match SK6812W with
  | Some n => JSNumber n
  | None => JSUndefined
  end.

(** [ws281x.init = function (numLeds, options)], for a number
    [numLeds]. *)
Definition init (numLeds : F64.t) (options : JSValue) : M unit :=
  let options :=
    if negb (String.eqb (typeof options) "object") then JSObject [] else options in
  modify (set_isInitialized true) ;;;
  buf <- lift (Buffer_new kMaxLength (F64.mul (F64.of_Z 4) numLeds)) ;;
  modify (set_outputBuffer (Some buf)) ;;;
  gc <- lift (get_prop options "gammaCorrection") ;;
  modify (set_useGammaCorrection (ToBoolean gc)) ;;;
  r <- lift (get_prop options "rgbToRgbw") ;;
  rgbw <- (if ToBoolean r
           then st <- lift (get_prop options "strip_type") ;;
                ret (strict_equals st STRIP_TYPES_SK6812W)
           else ret false) ;;
  modify (set_rgbToRgbw rgbw) ;;;
  modify (call_bindings (Binit numLeds options)).

(** [ws281x.setIndexMapping = function (mapping)]; [None] is a falsy
    argument such as [null]. *)
Definition setIndexMapping (mapping : option (list Z)) : M unit :=
  modify (set_indexMapping mapping).

(** [ws281x.render = function (data)].  The caller's array is changed in
    place: its final content is returned next to the state, whatever the
    completion; a normal completion returns that same array. *)
Definition render (data : list Z) (m : Module) : Module * list Z * Completion unit :=
  if negb (_isInitialized m) then (m, data, Throw not_initialized_render)
  else
    let m := emit "beforeRender" data m in
    let data :=
      match _indexMapping m with
      | Some mapping => remap data mapping
      | None => data
      end in
    let data := if _rgbToRgbw m then rgbToRgbw data else data in
    (* [data.map(gammaCorrect);] builds a new array, which is dropped *)
    let _mapped :=
      if _useGammaCorrection m then Some (TypedArray_map gammaCorrect data) else None in
    match encode data (_outputBuffer m) with
    | (buf, Throw e) => (set_outputBuffer buf m, data, Throw e)
    | (buf, Normal _) =>
        let m := set_outputBuffer buf m in
        let m := call_bindings (Brender (_outputBuffer m)) m in
        let m := emit "render" data m in
        (m, data, Normal tt)
    end.

(** [ws281x.setBrightness = function (brightness, render)] *)
Definition setBrightness (brightness : Z) (render : JSValue) : M unit :=
  isInit <- read _isInitialized ;;
  if negb isInit then throw not_initialized_setBrightness
  else
    useGamma <- read _useGammaCorrection ;;
    let brightness :=
      if useGamma then gamma_at (JS.and brightness 255) else brightness in
    modify (call_bindings (BsetBrightness brightness)) ;;;
    if negb (strict_equals render (JSBool false))
    then buf <- read _outputBuffer ;; modify (call_bindings (Brender buf))
    else ret tt.

(** [ws281x.reset = function ()] *)
Definition reset : M unit :=
  modify (set_isInitialized false) ;;;
  modify (set_outputBuffer None) ;;;
  modify (call_bindings Breset).

End Pipeline.

(** ** Definitions used by the statements and the proofs *)

(** Four bytes packed into a word, most significant first. *)
Definition pack (b3 b2 b1 b0 : Z) : Z := b3 * 2 ^ 24 + b2 * 2 ^ 16 + b1 * 2 ^ 8 + b0.

(** Zero or a positive finite double. *)
Definition F64_nonneg (f : F64.t) : bool :=
  match f with
  | S754_zero _ => true
  | S754_finite false _ _ => true
  | _ => false
  end.

Definition F64_lt (a b : F64.t) : Prop := SFcompare a b = Some Lt.

Definition prim_of_Z (z : Z) : PrimFloat.float := PrimFloat.of_uint63 (Uint63.of_Z z).

Definition prim_multiplier (t : Z) : PrimFloat.float :=
  PrimFloat.div (prim_of_Z 255) (prim_of_Z t).

Definition prim_hue (m : PrimFloat.float) (x : Z) : PrimFloat.float :=
  PrimFloat.mul (prim_of_Z x) m.

Definition prim_whiteness_arg (hMax hMin m : PrimFloat.float) : PrimFloat.float :=
  PrimFloat.div
    (PrimFloat.mul
       (PrimFloat.sub
          (PrimFloat.div (PrimFloat.add hMax hMin) (prim_of_Z 2))
          (PrimFloat.div (prim_of_Z 255) (prim_of_Z 2)))
       (prim_of_Z 2))
    m.

(** Two consecutive hues: both zero or positive, the second one larger. *)
Definition hue_step_ok (a b : F64.t) : bool :=
  F64_nonneg a && F64_nonneg b &&
  match SFcompare a b with
  | Some Lt => true
  | _ => false
  end.

(** The truncated whiteness [w] for the smallest channel [lo]. *)
Definition whiteness_in_range (w lo : Z) : bool :=
  (0 <=? w) && (lo - 1 <=? w) && (w <=? lo).

(** The value the remapping loop stores at position [i]. *)
Definition remap_value (_tmpData indexMapping : list Z) (i : nat) : Z :=
  typed_store_value
    match indexMapping !! i with
    | Some j => typed_read _tmpData j
    | None => None
    end.

(** The array after the remapping and conversion steps. *)
Definition transformed (m : Module) (data : list Z) : list Z :=
  let data :=
    match _indexMapping m with
    | Some mapping => remap data mapping
    | None => data
    end in
  if _rgbToRgbw m then rgbToRgbw data else data.


(** The options object [init] works with. *)
Definition defaulted (options : JSValue) : JSValue :=
  if negb (String.eqb (typeof options) "object") then JSObject [] else options.

(** The value of an option, [undefined] when there is nothing to read. *)
Definition prop_value (options : JSValue) (name : string) : JSValue :=
  match get_prop options name with
  | Normal v => v
  | Throw _ => JSUndefined
  end.

Definition option_enabled (options : JSValue) (name : string) : bool :=
  ToBoolean (prop_value options name).

Definition strip_type_is_SK6812W (SK6812W : option Z) (options : JSValue) : bool :=
  strict_equals (prop_value options "strip_type") (STRIP_TYPES_SK6812W SK6812W).

(** [4 * numLeds], the size [init] asks a frame of. *)
Definition frame_size (numLeds : F64.t) : F64.t := F64.mul (F64.of_Z 4) numLeds.

(** A call of an exported function by a user of the module. *)
Inductive Call : Type :=
| CallInit (numLeds : F64.t) (options : JSValue)
| CallSetIndexMapping (mapping : option (list Z))
| CallRender (data : list Z)
| CallSetBrightness (brightness : Z) (render : JSValue)
| CallReset.

(** The module after a call, whether it returned or threw. *)
Definition run_call (SK6812W : option Z) (kMaxLength : Z) (c : Call) (m : Module) : Module :=
  match c with
  | CallInit numLeds options => (init SK6812W kMaxLength numLeds options m).1
  | CallSetIndexMapping mapping => (setIndexMapping mapping m).1
  | CallRender data => (render data m).1.1
  | CallSetBrightness brightness r => (setBrightness brightness r m).1
  | CallReset => (reset m).1
  end.

Definition run (SK6812W : option Z) (kMaxLength : Z) (calls : list Call) (m : Module) : Module :=
  fold_left (fun m c => run_call SK6812W kMaxLength c m) calls m.

Definition is_setIndexMapping (c : Call) : bool :=
  match c with
  | CallSetIndexMapping _ => true
  | _ => false
  end.


(** [Math.pow(x, y)] for [0 <= x] and [0 < y], on real numbers. *)
Definition Math_pow (x y : R) : R :=
  if Req_dec_T x 0 then 0%R else Rpower x y.

(** [Math.floor] *)
Definition Math_floor (r : R) : Z := Int_part r.

(** [Math.pow(i / 255, 1 / 0.45) * 255 + 0.5] *)
Definition gamma_formula (i : Z) : R :=
  (Math_pow (IZR i / 255) (1 / (45 / 100)) * 255 + 5 / 10)%R.

(** [p^9 * 255^20] and [q^9 * i^20]: the two sides of
    [(p / q)^9 <= (i / 255)^20] with the denominators cleared. *)
Definition pow_bound (p : Z) : Z := p ^ 9 * 255 ^ 20.
Definition pow_index (q i : Z) : Z := q ^ 9 * i ^ 20.

(** [(2 j - 1)^9], the bound that [gamma_floor_from] tests for [j]. *)
Definition odd9 (j : Z) : Z := (2 * j - 1) ^ 9.

(** [k - 1/2 <= (n / 255)^(20/9) * 255 < k + 1/2], on integers. *)
Definition entry_check (k n : Z) : bool :=
  (pow_bound (2 * k - 1) <=? gamma_rhs n) &&
  (gamma_rhs n <? pow_bound (2 * k + 1)).

(** The same with a thousandth to spare on both sides. *)
Definition margin_check (k n : Z) : bool :=
  (pow_bound (1000 * (2 * k - 1) + 2) <=? pow_index 510000 n) &&
  (pow_index 510000 n <? pow_bound (1000 * (2 * k + 1) - 2)).

(** An [init] that is given a count of LEDs whose frame the buffer limit
    admits; every other call. *)
Definition init_with_count (kMaxLength : Z) (c : Call) : Prop :=
  match c with
  | CallInit numLeds _ =>
      exists n : nat, numLeds = F64.of_Z (Z.of_nat n) /\ 4 * Z.of_nat n <= kMaxLength
  | _ => True
  end.

(** The frame exists exactly while the module is initialized, it holds
    whole pixels, and the bindings were never asked to render [null]. *)
Definition frame_invariant (m : Module) : Prop :=
  (_isInitialized m = true ->
   exists b, _outputBuffer m = Some b /\ (length b mod 4 = 0)%nat) /\
  (_isInitialized m = false -> _outputBuffer m = None) /\
  Forall (fun c => c <> Brender None) (bindings_calls m).

(** * Properties *)


(** ** Facts on the 32-bit operators *)

Lemma ToInt32_wrap (z : Z) : exists q, JS.ToInt32 z = z - 2 ^ 32 * q.
Proof.
  exists ((z + 2 ^ 31) / 2 ^ 32). unfold JS.ToInt32.
  rewrite Z.mod_eq by lia. lia.
Qed.

Lemma ToInt32_small (z : Z) : - 2 ^ 31 <= z < 2 ^ 31 -> JS.ToInt32 z = z.
Proof.
  intros H. unfold JS.ToInt32. rewrite Z.mod_small by lia. lia.
Qed.

Lemma ToInt32_mod (z : Z) : JS.ToInt32 z mod 2 ^ 32 = z mod 2 ^ 32.
Proof.
  destruct (ToInt32_wrap z) as [q ->].
  replace (z - 2 ^ 32 * q) with (z + (- q) * 2 ^ 32) by lia.
  apply Z.mod_add. lia.
Qed.

Lemma ToUint32_small (z : Z) : is_uint32 z -> JS.ToUint32 z = z.
Proof. intros H. apply Z.mod_small. exact H. Qed.

Lemma ToUint32_range (z : Z) : is_uint32 (JS.ToUint32 z).
Proof. unfold is_uint32, JS.ToUint32. apply Z.mod_pos_bound. lia. Qed.

Lemma ToInt32_mod_pow (z n : Z) :
  0 <= n <= 32 -> JS.ToInt32 z mod 2 ^ n = z mod 2 ^ n.
Proof.
  intros Hn. destruct (ToInt32_wrap z) as [q ->].
  assert (E : 2 ^ 32 = 2 ^ (32 - n) * 2 ^ n).
  { rewrite <- Z.pow_add_r by lia. f_equal. lia. }
  replace (z - 2 ^ 32 * q) with (z + (- q * 2 ^ (32 - n)) * 2 ^ n) by (rewrite E; lia).
  apply Z.mod_add. lia.
Qed.

(** [x & 0xff] keeps the low byte. *)
Lemma and_255 (x : Z) : JS.and x 255 = x mod 2 ^ 8.
Proof.
  unfold JS.and. rewrite (ToInt32_small 255) by lia.
  change 255 with (Z.ones 8). rewrite Z.land_ones by lia.
  apply ToInt32_mod_pow. lia.
Qed.

(** [(c >> 8k) & 0xff] reads byte [k] of a word. *)
Lemma and_sar_byte (k c : Z) :
  0 <= k <= 3 -> JS.and (JS.sar c (8 * k)) 255 = byte_of k c.
Proof.
  intros Hk. rewrite and_255. unfold JS.sar, byte_of.
  rewrite (Z.mod_small (8 * k) 32) by lia.
  rewrite Z.shiftr_div_pow2 by lia.
  destruct (ToInt32_wrap c) as [q ->].
  assert (E : 2 ^ 32 = 2 ^ (24 - 8 * k) * 2 ^ 8 * 2 ^ (8 * k)).
  { rewrite <- !Z.pow_add_r by lia. f_equal. lia. }
  replace (c - 2 ^ 32 * q)
    with (c + (- q * 2 ^ (24 - 8 * k) * 2 ^ 8) * 2 ^ (8 * k)) by (rewrite E; lia).
  rewrite Z.div_add by lia.
  replace (c / 2 ^ (8 * k) + - q * 2 ^ (24 - 8 * k) * 2 ^ 8)
    with (c / 2 ^ (8 * k) + (- q * 2 ^ (24 - 8 * k)) * 2 ^ 8) by lia.
  rewrite Z.mod_add by lia. reflexivity.
Qed.

Lemma and_byte0 (c : Z) : JS.and c 255 = byte_of 0 c.
Proof.
  rewrite and_255. unfold byte_of.
  change (2 ^ (8 * 0)) with 1. rewrite Z.div_1_r. reflexivity.
Qed.

Lemma byte_of_range (k w : Z) : is_byte (byte_of k w).
Proof. unfold is_byte, byte_of. apply Z.mod_pos_bound. lia. Qed.

(** Modulo [2^32] the operators are the plain bit operations. *)
Lemma or_mod (x y : Z) :
  JS.or x y mod 2 ^ 32 = Z.lor (x mod 2 ^ 32) (y mod 2 ^ 32).
Proof.
  unfold JS.or. rewrite <- !Z.land_ones by lia.
  rewrite Z.land_lor_distr_l. rewrite !Z.land_ones by lia.
  rewrite !ToInt32_mod. reflexivity.
Qed.

Lemma shl_mod (x n : Z) :
  0 <= n < 32 -> JS.shl x n mod 2 ^ 32 = (x * 2 ^ n) mod 2 ^ 32.
Proof.
  intros Hn. unfold JS.shl. rewrite ToInt32_mod.
  rewrite (Z.mod_small n 32) by lia.
  rewrite Z.shiftl_mul_pow2 by lia.
  destruct (ToInt32_wrap x) as [q ->].
  replace ((x - 2 ^ 32 * q) * 2 ^ n) with (x * 2 ^ n + (- q * 2 ^ n) * 2 ^ 32) by lia.
  apply Z.mod_add. lia.
Qed.

Lemma shr0 (x : Z) : JS.shr x 0 = x mod 2 ^ 32.
Proof. unfold JS.shr, JS.ToUint32. apply Z.shiftr_0_r. Qed.

(** Bit fields that do not overlap add up. *)
Lemma lor_above (k x y : Z) :
  0 <= k -> 0 <= y < 2 ^ k -> Z.lor (x * 2 ^ k) y = x * 2 ^ k + y.
Proof.
  intros Hk Hy. symmetry. apply Z.add_nocarry_lor.
  apply Z.bits_inj'. intros n Hn.
  rewrite Z.land_spec, Z.bits_0.
  destruct (Z.lt_ge_cases n k) as [Hlt|Hge].
  - rewrite Z.mul_pow2_bits_low by lia. reflexivity.
  - assert (Z.testbit y n = false) as ->; [|apply andb_false_r].
    destruct (Z.eq_dec y 0) as [->|Hy0]; [apply Z.bits_0|].
    apply Z.bits_above_log2; [lia|].
    apply Z.lt_le_trans with k; [|lia].
    apply Z.log2_lt_pow2; lia.
Qed.

Lemma pack_range (b3 b2 b1 b0 : Z) :
  is_byte b3 -> is_byte b2 -> is_byte b1 -> is_byte b0 -> is_uint32 (pack b3 b2 b1 b0).
Proof. unfold is_byte, is_uint32, pack. lia. Qed.

Lemma lor_pack (b3 b2 b1 b0 : Z) :
  is_byte b3 -> is_byte b2 -> is_byte b1 -> is_byte b0 ->
  Z.lor (b3 * 2 ^ 24) (Z.lor (b2 * 2 ^ 16) (Z.lor (b1 * 2 ^ 8) b0)) = pack b3 b2 b1 b0.
Proof.
  unfold is_byte, pack. intros H3 H2 H1 H0.
  rewrite (lor_above 8) by lia.
  rewrite (lor_above 16) by lia.
  rewrite (lor_above 24) by lia. lia.
Qed.

Lemma byte_of_pack (b3 b2 b1 b0 : Z) :
  is_byte b3 -> is_byte b2 -> is_byte b1 -> is_byte b0 ->
  byte_of 3 (pack b3 b2 b1 b0) = b3 /\ byte_of 2 (pack b3 b2 b1 b0) = b2 /\
  byte_of 1 (pack b3 b2 b1 b0) = b1 /\ byte_of 0 (pack b3 b2 b1 b0) = b0.
Proof.
  unfold is_byte, pack, byte_of. intros H3 H2 H1 H0.
  change (2 ^ (8 * 3)) with (2 ^ 24). change (2 ^ (8 * 2)) with (2 ^ 16).
  change (2 ^ (8 * 1)) with (2 ^ 8). change (2 ^ (8 * 0)) with 1.
  repeat split.
  - replace (b3 * 2 ^ 24 + b2 * 2 ^ 16 + b1 * 2 ^ 8 + b0)
      with ((b2 * 2 ^ 16 + b1 * 2 ^ 8 + b0) + b3 * 2 ^ 24) by lia.
    rewrite Z.div_add by lia. rewrite Z.div_small by lia.
    apply Z.mod_small. lia.
  - replace (b3 * 2 ^ 24 + b2 * 2 ^ 16 + b1 * 2 ^ 8 + b0)
      with ((b1 * 2 ^ 8 + b0) + (b3 * 2 ^ 8 + b2) * 2 ^ 16) by lia.
    rewrite Z.div_add by lia. rewrite Z.div_small by lia.
    replace (0 + (b3 * 2 ^ 8 + b2)) with (b2 + b3 * 256) by lia.
    rewrite Z.mod_add by lia. apply Z.mod_small. lia.
  - replace (b3 * 2 ^ 24 + b2 * 2 ^ 16 + b1 * 2 ^ 8 + b0)
      with (b0 + (b3 * 2 ^ 16 + b2 * 2 ^ 8 + b1) * 2 ^ 8) by lia.
    rewrite Z.div_add by lia. rewrite Z.div_small by lia.
    replace (0 + (b3 * 2 ^ 16 + b2 * 2 ^ 8 + b1)) with (b1 + (b3 * 2 ^ 8 + b2) * 256) by lia.
    rewrite Z.mod_add by lia. apply Z.mod_small. lia.
  - rewrite Z.div_1_r.
    replace (b3 * 2 ^ 24 + b2 * 2 ^ 16 + b1 * 2 ^ 8 + b0)
      with (b0 + (b3 * 2 ^ 16 + b2 * 2 ^ 8 + b1) * 256) by lia.
    rewrite Z.mod_add by lia. apply Z.mod_small. lia.
Qed.

(** [(b3 << 24 | b2 << 16 | b1 << 8 | b0) >>> 0] *)
Lemma or_shl_pack (b3 b2 b1 b0 : Z) :
  is_byte b3 -> is_byte b2 -> is_byte b1 -> is_byte b0 ->
  JS.shr (JS.or (JS.or (JS.or (JS.shl b3 24) (JS.shl b2 16)) (JS.shl b1 8)) b0) 0
  = pack b3 b2 b1 b0.
Proof.
  intros H3 H2 H1 H0. rewrite shr0, !or_mod, !shl_mod by lia.
  unfold is_byte in *.
  rewrite !Z.mod_small by lia.
  rewrite <- !Z.lor_assoc. apply lor_pack; assumption.
Qed.

(** [(b0 | b1 << 8 | b2 << 16 | b3 << 24) >>> 0] *)
Lemma or_shl_pack_rev (b3 b2 b1 b0 : Z) :
  is_byte b3 -> is_byte b2 -> is_byte b1 -> is_byte b0 ->
  JS.shr (JS.or (JS.or (JS.or b0 (JS.shl b1 8)) (JS.shl b2 16)) (JS.shl b3 24)) 0
  = pack b3 b2 b1 b0.
Proof.
  intros H3 H2 H1 H0. rewrite shr0, !or_mod, !shl_mod by lia.
  unfold is_byte in *.
  rewrite !Z.mod_small by lia.
  rewrite <- (lor_pack b3 b2 b1 b0) by assumption.
  rewrite (Z.lor_comm b0), (Z.lor_comm _ (b2 * 2 ^ 16)), (Z.lor_comm _ (b3 * 2 ^ 24)).
  reflexivity.
Qed.

(** A word is the sum of its four bytes. *)
Lemma word_of_bytes (w : Z) :
  is_uint32 w -> w = pack (byte_of 3 w) (byte_of 2 w) (byte_of 1 w) (byte_of 0 w).
Proof.
  unfold is_uint32, pack, byte_of. intros Hw.
  change (2 ^ (8 * 3)) with 16777216. change (2 ^ (8 * 2)) with 65536.
  change (2 ^ (8 * 1)) with 256. change (2 ^ (8 * 0)) with 1.
  change (2 ^ 24) with 16777216. change (2 ^ 16) with 65536. change (2 ^ 8) with 256.
  change (2 ^ 32) with 4294967296 in Hw.
  Z.div_mod_to_equations. lia.
Qed.



(** ** The doubles met by [rgbToRgbw] *)

Lemma F64_lt_trans (a b c : F64.t) :
  F64_nonneg a = true -> F64_nonneg b = true -> F64_nonneg c = true ->
  F64_lt a b -> F64_lt b c -> F64_lt a c.
Proof.
  unfold F64_lt.
  destruct a as [sa|sa| |[] ma ea], b as [sb|sb| |[] mb eb], c as [sc|sc| |[] mc ec];
    simpl; try discriminate; try reflexivity; intros _ _ _.
  change (Pos.compare_cont Eq ma mb) with (Pos.compare ma mb).
  change (Pos.compare_cont Eq mb mc) with (Pos.compare mb mc).
  change (Pos.compare_cont Eq ma mc) with (Pos.compare ma mc).
  intros H1 H2. injection H1 as H1. injection H2 as H2. f_equal.
  destruct (Z.compare_spec ea eb) as [E1|E1|E1]; try discriminate;
    destruct (Z.compare_spec eb ec) as [E2|E2|E2]; try discriminate;
    destruct (Z.compare_spec ea ec) as [E3|E3|E3]; try lia; try reflexivity.
  rewrite Pos.compare_lt_iff in *. lia.
Qed.

Lemma F64_lt_gt (a b : F64.t) :
  F64_nonneg a = true -> F64_nonneg b = true -> F64_lt a b -> SFcompare b a = Some Gt.
Proof.
  unfold F64_lt.
  destruct a as [sa|sa| |[] ma ea], b as [sb|sb| |[] mb eb];
    simpl; try discriminate; try reflexivity; intros _ _.
  change (Pos.compare_cont Eq ma mb) with (Pos.compare ma mb).
  change (Pos.compare_cont Eq mb ma) with (Pos.compare mb ma).
  rewrite (Z.compare_antisym ea eb), (Pos.compare_antisym ma mb).
  destruct (ea ?= eb); simpl; try discriminate; try reflexivity.
  destruct (ma ?= mb)%positive; simpl; try discriminate; reflexivity.
Qed.

Lemma F64_compare_refl (a : F64.t) : F64_nonneg a = true -> SFcompare a a = Some Eq.
Proof.
  destruct a as [sa|sa| |[] ma ea]; simpl; try discriminate; try reflexivity; intros _.
  change (Pos.compare_cont Eq ma ma) with (Pos.compare ma ma).
  rewrite Z.compare_refl, Pos.compare_refl. reflexivity.
Qed.

(** *** The same computation on the primitive doubles of the kernel

    The enumerations below run on primitive floats; [FloatAxioms] relates
    each primitive operation to the operation of [SpecFloat] that the
    model uses. *)

Lemma prim_mul (a b : PrimFloat.float) :
  FloatOps.Prim2SF (PrimFloat.mul a b) = F64.mul (FloatOps.Prim2SF a) (FloatOps.Prim2SF b).
Proof. exact (FloatAxioms.mul_spec a b). Qed.

Lemma prim_div (a b : PrimFloat.float) :
  FloatOps.Prim2SF (PrimFloat.div a b) = F64.div (FloatOps.Prim2SF a) (FloatOps.Prim2SF b).
Proof. exact (FloatAxioms.div_spec a b). Qed.

Lemma prim_add (a b : PrimFloat.float) :
  FloatOps.Prim2SF (PrimFloat.add a b) = F64.add (FloatOps.Prim2SF a) (FloatOps.Prim2SF b).
Proof. exact (FloatAxioms.add_spec a b). Qed.

Lemma prim_sub (a b : PrimFloat.float) :
  FloatOps.Prim2SF (PrimFloat.sub a b) = F64.sub (FloatOps.Prim2SF a) (FloatOps.Prim2SF b).
Proof. exact (FloatAxioms.sub_spec a b). Qed.

Lemma prim_of_Z_spec (z : Z) :
  0 <= z < 2 ^ 63 -> FloatOps.Prim2SF (prim_of_Z z) = F64.of_Z z.
Proof.
  intros Hz. unfold prim_of_Z. rewrite FloatAxioms.of_uint63_spec.
  rewrite Uint63.of_Z_spec. rewrite Z.mod_small by exact Hz. reflexivity.
Qed.

Lemma prim_multiplier_spec (t : Z) :
  0 <= t < 2 ^ 63 -> FloatOps.Prim2SF (prim_multiplier t) = multiplier t.
Proof.
  intros Ht. unfold prim_multiplier, multiplier.
  rewrite prim_div, !prim_of_Z_spec by lia. reflexivity.
Qed.

Lemma prim_hue_spec (t x : Z) :
  0 <= t < 2 ^ 63 -> 0 <= x < 2 ^ 63 ->
  FloatOps.Prim2SF (prim_hue (prim_multiplier t) x) = hue x t.
Proof.
  intros Ht Hx. unfold prim_hue, hue.
  rewrite prim_mul, prim_of_Z_spec, prim_multiplier_spec by lia. reflexivity.
Qed.

Lemma of_scaled_half_255 : F64.of_scaled 255 (-1) = F64.div (F64.of_Z 255) (F64.of_Z 2).
Proof. vm_compute. reflexivity. Qed.

Lemma prim_whiteness_spec (a b m : PrimFloat.float) :
  whiteness_of (FloatOps.Prim2SF a) (FloatOps.Prim2SF b) (FloatOps.Prim2SF m)
  = F64.double_tilde (FloatOps.Prim2SF (prim_whiteness_arg a b m)).
Proof.
  unfold whiteness_of, prim_whiteness_arg.
  rewrite !prim_div, prim_mul, prim_sub, !prim_div, prim_add.
  rewrite !prim_of_Z_spec by lia. rewrite of_scaled_half_255. reflexivity.
Qed.

(** The hues of the channels [0 .. t] for the maximum [t] increase strictly. *)
Lemma hue_steps_checked :
  forallb
    (fun t : nat =>
       forallb
         (fun x : nat =>
            hue_step_ok
              (FloatOps.Prim2SF (prim_hue (prim_multiplier (Z.of_nat t)) (Z.of_nat x)))
              (FloatOps.Prim2SF (prim_hue (prim_multiplier (Z.of_nat t)) (Z.of_nat (S x)))))
         (seq 0 t))
    (seq 1 255) = true.
Proof. vm_cast_no_check (eq_refl true). Qed.

Lemma hue_step_ok_spec (a b : F64.t) :
  hue_step_ok a b = true -> F64_nonneg a = true /\ F64_nonneg b = true /\ F64_lt a b.
Proof.
  unfold hue_step_ok, F64_lt. intros H.
  apply andb_prop in H as [H H3]. apply andb_prop in H as [H1 H2].
  repeat split; try assumption.
  destruct (SFcompare a b) as [[]|]; try discriminate. reflexivity.
Qed.

Lemma hue_step (t x : nat) :
  (1 <= t <= 255)%nat -> (x < t)%nat ->
  F64_nonneg (hue (Z.of_nat x) (Z.of_nat t)) = true /\
  F64_nonneg (hue (Z.of_nat (S x)) (Z.of_nat t)) = true /\
  F64_lt (hue (Z.of_nat x) (Z.of_nat t)) (hue (Z.of_nat (S x)) (Z.of_nat t)).
Proof.
  intros Ht Hx.
  pose proof hue_steps_checked as H.
  rewrite forallb_forall in H.
  specialize (H t ltac:(apply in_seq; lia)). cbv beta in H.
  rewrite forallb_forall in H.
  specialize (H x ltac:(apply in_seq; lia)). cbv beta in H.
  rewrite !prim_hue_spec in H by lia.
  apply hue_step_ok_spec. exact H.
Qed.

Lemma hue_nonneg (t x : nat) :
  (1 <= t <= 255)%nat -> (x <= t)%nat -> F64_nonneg (hue (Z.of_nat x) (Z.of_nat t)) = true.
Proof.
  intros Ht Hx. destruct x as [|x'].
  - apply (hue_step t 0); lia.
  - apply (hue_step t x'); lia.
Qed.

Lemma hue_lt (t x d : nat) :
  (1 <= t <= 255)%nat -> (x + S d <= t)%nat ->
  F64_lt (hue (Z.of_nat x) (Z.of_nat t)) (hue (Z.of_nat (x + S d)) (Z.of_nat t)).
Proof.
  intros Ht. induction d as [|d IH]; intros Hx.
  - replace (x + 1)%nat with (S x) by lia. apply hue_step; lia.
  - apply F64_lt_trans with (hue (Z.of_nat (x + S d)) (Z.of_nat t)).
    + apply hue_nonneg; lia.
    + apply hue_nonneg; lia.
    + apply hue_nonneg; lia.
    + apply IH. lia.
    + replace (x + S (S d))%nat with (S (x + S d)) by lia. apply hue_step; lia.
Qed.

Lemma hue_compare (t x y : Z) :
  1 <= t <= 255 -> 0 <= x -> x < y -> y <= t ->
  F64_lt (hue x t) (hue y t).
Proof.
  intros Ht Hx Hxy Hy.
  pose proof (hue_lt (Z.to_nat t) (Z.to_nat x) (Z.to_nat (y - x - 1)) ltac:(lia) ltac:(lia)) as H.
  replace (Z.of_nat (Z.to_nat x + S (Z.to_nat (y - x - 1)))) with y in H by lia.
  rewrite !Z2Nat.id in H by lia. exact H.
Qed.

Lemma hue_nonneg_Z (t x : Z) :
  1 <= t <= 255 -> 0 <= x <= t -> F64_nonneg (hue x t) = true.
Proof.
  intros Ht Hx.
  pose proof (hue_nonneg (Z.to_nat t) (Z.to_nat x) ltac:(lia) ltac:(lia)) as H.
  rewrite !Z2Nat.id in H by lia. exact H.
Qed.

(** [Math.max] and [Math.min] of two hues are the hues of the larger and
    of the smaller channel. *)
Lemma max_hue (t x y : Z) :
  1 <= t <= 255 -> 0 <= x <= t -> 0 <= y <= t ->
  F64.max (hue x t) (hue y t) = hue (Z.max x y) t.
Proof.
  intros Ht Hx Hy. unfold F64.max.
  destruct (Z.lt_trichotomy x y) as [H|[H|H]].
  - rewrite (hue_compare t x y) by lia. rewrite Z.max_r by lia. reflexivity.
  - subst y. rewrite F64_compare_refl by (apply hue_nonneg_Z; lia).
    rewrite Z.max_id. reflexivity.
  - rewrite (F64_lt_gt (hue y t) (hue x t)).
    + rewrite Z.max_l by lia. reflexivity.
    + apply hue_nonneg_Z; lia.
    + apply hue_nonneg_Z; lia.
    + apply hue_compare; lia.
Qed.

Lemma min_hue (t x y : Z) :
  1 <= t <= 255 -> 0 <= x <= t -> 0 <= y <= t ->
  F64.min (hue x t) (hue y t) = hue (Z.min x y) t.
Proof.
  intros Ht Hx Hy. unfold F64.min.
  destruct (Z.lt_trichotomy x y) as [H|[H|H]].
  - rewrite (hue_compare t x y) by lia. rewrite Z.min_l by lia. reflexivity.
  - subst y. rewrite F64_compare_refl by (apply hue_nonneg_Z; lia).
    rewrite Z.min_id. reflexivity.
  - rewrite (F64_lt_gt (hue y t) (hue x t)).
    + rewrite Z.min_r by lia. reflexivity.
    + apply hue_nonneg_Z; lia.
    + apply hue_nonneg_Z; lia.
    + apply hue_compare; lia.
Qed.

(** The whiteness for the largest channel [t] and the smallest channel
    [lo] is [lo] or [lo - 1], and not negative. *)
Lemma whiteness_pairs_checked :
  forallb
    (fun t : nat =>
       forallb
         (fun lo : nat =>
            whiteness_in_range
              (F64.trunc
                 (FloatOps.Prim2SF
                    (prim_whiteness_arg
                       (prim_hue (prim_multiplier (Z.of_nat t)) (Z.of_nat t))
                       (prim_hue (prim_multiplier (Z.of_nat t)) (Z.of_nat lo))
                       (prim_multiplier (Z.of_nat t)))))
              (Z.of_nat lo))
         (seq 0 (S t)))
    (seq 1 255) = true.
Proof. vm_cast_no_check (eq_refl true). Qed.

Lemma whiteness_of_near_min (t lo : Z) :
  1 <= t <= 255 -> 0 <= lo <= t ->
  0 <= whiteness_of (hue t t) (hue lo t) (multiplier t) /\
  lo - 1 <= whiteness_of (hue t t) (hue lo t) (multiplier t) <= lo.
Proof.
  intros Ht Hlo.
  pose proof whiteness_pairs_checked as H.
  rewrite forallb_forall in H.
  specialize (H (Z.to_nat t) ltac:(apply in_seq; lia)). cbv beta in H.
  rewrite forallb_forall in H.
  specialize (H (Z.to_nat lo) ltac:(apply in_seq; lia)). cbv beta in H.
  rewrite !Z2Nat.id in H by lia.
  rewrite <- (prim_hue_spec t t), <- (prim_hue_spec t lo), <- (prim_multiplier_spec t) by lia.
  rewrite prim_whiteness_spec. unfold F64.double_tilde.
  generalize dependent (F64.trunc
    (FloatOps.Prim2SF
       (prim_whiteness_arg (prim_hue (prim_multiplier t) t)
          (prim_hue (prim_multiplier t) lo) (prim_multiplier t)))).
  intros w H. unfold whiteness_in_range in H.
  apply andb_prop in H as [H H3]. apply andb_prop in H as [H1 H2].
  apply Z.leb_le in H1, H2, H3.
  rewrite !(ToInt32_small w) by lia. lia.
Qed.

Lemma whiteness_of_range (t lo : Z) :
  1 <= t <= 255 -> 0 <= lo <= t ->
  0 <= whiteness_of (hue t t) (hue lo t) (multiplier t) <= lo.
Proof. intros Ht Hlo. pose proof (whiteness_of_near_min t lo Ht Hlo). lia. Qed.

Lemma whiteness_max_min (r g b : Z) :
  is_byte r -> is_byte g -> is_byte b -> JS.max3 r g b <> 0 ->
  whiteness r g b =
  whiteness_of (hue (JS.max3 r g b) (JS.max3 r g b)) (hue (JS.min3 r g b) (JS.max3 r g b))
               (multiplier (JS.max3 r g b)).
Proof.
  unfold is_byte. intros Hr Hg Hb Hmax.
  assert (Ht : 1 <= JS.max3 r g b <= 255) by (unfold JS.max3 in *; lia).
  unfold whiteness. cbv zeta.
  set (t := JS.max3 r g b) in *.
  assert (Hr' : 0 <= r <= t) by (unfold t, JS.max3; lia).
  assert (Hg' : 0 <= g <= t) by (unfold t, JS.max3; lia).
  assert (Hb' : 0 <= b <= t) by (unfold t, JS.max3; lia).
  unfold F64.max3, F64.min3.
  rewrite (max_hue t r g), (max_hue t (Z.max r g) b) by lia.
  rewrite (min_hue t r g), (min_hue t (Z.min r g) b) by lia.
  reflexivity.
Qed.

Lemma whiteness_near_min (r g b : Z) :
  is_byte r -> is_byte g -> is_byte b -> JS.max3 r g b <> 0 ->
  0 <= whiteness r g b /\ JS.min3 r g b - 1 <= whiteness r g b <= JS.min3 r g b.
Proof.
  intros Hr Hg Hb Hmax. rewrite whiteness_max_min by assumption.
  unfold is_byte in *.
  apply whiteness_of_near_min; unfold JS.max3, JS.min3 in *; lia.
Qed.

Lemma whiteness_range (r g b : Z) :
  is_byte r -> is_byte g -> is_byte b -> JS.max3 r g b <> 0 ->
  0 <= whiteness r g b <= JS.min3 r g b.
Proof.
  intros Hr Hg Hb Hmax. pose proof (whiteness_near_min r g b Hr Hg Hb Hmax). lia.
Qed.



(** ** The double of an LED count

    A natural number below [2^53] is a double, multiplying it by 4 is
    exact, and [new Buffer] then allocates four bytes per LED. *)

Lemma digits2_pos_size (p : positive) : digits2_pos p = Pos.size p.
Proof. induction p as [p IH|p IH|]; simpl; congruence. Qed.

Lemma digits2_pos_bounds (p : positive) :
  2 ^ Zpos (digits2_pos p) <= 2 * Zpos p /\ Zpos p < 2 ^ Zpos (digits2_pos p).
Proof.
  rewrite digits2_pos_size. split.
  - pose proof (Pos.size_le p) as H.
    apply Pos2Z.pos_le_pos in H. rewrite Pos2Z.inj_pow in H. exact H.
  - pose proof (Pos.size_gt p) as H.
    apply Pos2Z.pos_lt_pos in H. rewrite Pos2Z.inj_pow in H. exact H.
Qed.

Lemma iter_xO_value (p k : positive) : Zpos (Pos.iter xO p k) = Zpos p * 2 ^ Zpos k.
Proof.
  induction k as [|k IH] using Pos.peano_ind.
  - simpl. lia.
  - rewrite Pos.iter_succ, Pos2Z.inj_xO, IH, Pos2Z.inj_succ, Z.pow_succ_r by lia. lia.
Qed.

Lemma iter_xO_digits (p k : positive) :
  digits2_pos (Pos.iter xO p k) = (digits2_pos p + k)%positive.
Proof.
  induction k as [|k IH] using Pos.peano_ind.
  - simpl. lia.
  - rewrite Pos.iter_succ. simpl. rewrite IH. lia.
Qed.

Lemma iter_pos_iter {A : Type} (f : A -> A) (k : positive) :
  forall x : A, @SpecFloat.iter_pos A f k x = Pos.iter f x k.
Proof.
  induction k as [k IH|k IH|]; intros x; simpl.
  - rewrite !IH, !Pos.iter_swap. reflexivity.
  - rewrite !IH. reflexivity.
  - reflexivity.
Qed.

(** Shifting right the bits that a shift to the left added loses
    nothing. *)
Lemma shr_iter_xO (p k : positive) :
  @SpecFloat.iter_pos shr_record shr_1 k (Build_shr_record (Zpos (Pos.iter xO p k)) false false)
  = Build_shr_record (Zpos p) false false.
Proof.
  rewrite iter_pos_iter.
  induction k as [|k IH] using Pos.peano_ind.
  - reflexivity.
  - rewrite Pos.iter_succ_r, Pos.iter_succ. exact IH.
Qed.

(** A mantissa of 53 bits with an exponent in range is kept by the
    rounding. *)
Lemma binary_round_aux_canonical (s : bool) (m : positive) (e : Z) :
  Zpos (digits2_pos m) = 53 -> -1074 <= e <= 971 ->
  binary_round_aux F64.prec F64.emax s (Zpos m) e loc_Exact = S754_finite s m e.
Proof.
  intros Hd He.
  assert (Hshift : fexp F64.prec F64.emax (Zdigits2 (Zpos m) + e) - e = 0).
  { unfold fexp, emin, F64.prec, F64.emax. cbn [Zdigits2]. lia. }
  unfold binary_round_aux, shr_fexp. rewrite Hshift.
  cbn [shr shr_record_of_loc shr_m loc_of_shr_record round_nearest_even].
  rewrite Hshift. cbn [shr shr_record_of_loc shr_m].
  destruct (Z.leb_spec e (F64.emax - F64.prec)) as [_|H]; [reflexivity|].
  unfold F64.emax, F64.prec in H. lia.
Qed.

(** The double of a positive integer of at most 53 bits: the integer
    shifted to 53 bits, with the exponent that undoes the shift. *)
Lemma of_Z_pos (p : positive) :
  Zpos (digits2_pos p) <= 53 ->
  exists m : positive,
    F64.of_Z (Zpos p) = S754_finite false m (Zpos (digits2_pos p) - 53) /\
    Zpos m = Zpos p * 2 ^ (53 - Zpos (digits2_pos p)) /\
    Zpos (digits2_pos m) = 53.
Proof.
  intros Hd.
  unfold F64.of_Z, binary_normalize, binary_round, shl_align.
  assert (He : fexp F64.prec F64.emax (Zpos (digits2_pos p) + 0) - 0
               = Zpos (digits2_pos p) - 53).
  { unfold fexp, emin, F64.prec, F64.emax. lia. }
  rewrite He.
  destruct (Zpos (digits2_pos p) - 53) as [|k|k] eqn:Hk; [| lia |].
  - exists p. rewrite binary_round_aux_canonical by lia.
    replace (53 - Zpos (digits2_pos p)) with 0 by lia.
    split; [reflexivity|]. split; lia.
  - exists (Pos.iter xO p k).
    assert (Hf : fexp F64.prec F64.emax (Zpos (digits2_pos p) + 0) = Zneg k).
    { unfold fexp, emin, F64.prec, F64.emax. lia. }
    rewrite Hf.
    assert (Hdk : Zpos (digits2_pos (Pos.iter xO p k)) = 53).
    { rewrite iter_xO_digits. lia. }
    rewrite binary_round_aux_canonical by lia.
    split; [reflexivity|]. split; [|exact Hdk].
    rewrite iter_xO_value. f_equal. f_equal. lia.
Qed.

(** [4 * x] only raises the exponent. *)
Lemma mul_4_canonical (m : positive) (e : Z) :
  Zpos (digits2_pos m) = 53 -> -1074 <= e <= 969 ->
  F64.mul (F64.of_Z 4) (S754_finite false m e) = S754_finite false m (e + 2).
Proof.
  intros Hd He.
  change (F64.of_Z 4) with (S754_finite false 4503599627370496 (-50)).
  unfold F64.mul, SFmul. cbn [xorb].
  change (4503599627370496 * m)%positive with (Pos.iter xO m 52).
  unfold binary_round_aux at 1. unfold shr_fexp at 1.
  assert (Hshift : fexp F64.prec F64.emax (Zdigits2 (Zpos (Pos.iter xO m 52)) + (-50 + e))
                   - (-50 + e) = 52).
  { cbn [Zdigits2]. rewrite iter_xO_digits.
    unfold fexp, emin, F64.prec, F64.emax. lia. }
  rewrite Hshift. cbn [shr shr_record_of_loc]. rewrite shr_iter_xO.
  cbn [shr_m loc_of_shr_record round_nearest_even].
  assert (Hshift' : fexp F64.prec F64.emax (Zdigits2 (Zpos m) + (-50 + e + 52))
                    - (-50 + e + 52) = 0).
  { unfold fexp, emin, F64.prec, F64.emax. cbn [Zdigits2]. lia. }
  unfold shr_fexp. rewrite Hshift'. cbn [shr shr_record_of_loc shr_m].
  destruct (Z.leb_spec (-50 + e + 52) (F64.emax - F64.prec)) as [_|H].
  - f_equal. lia.
  - unfold F64.emax, F64.prec in H. lia.
Qed.

(** A count [n] of LEDs with [4 * n] within the limit gets a frame of
    [4 * n] bytes. *)
Lemma Buffer_new_count (kMaxLength : Z) (n : nat) :
  4 * Z.of_nat n <= kMaxLength < 2 ^ 53 ->
  Buffer_new kMaxLength (F64.mul (F64.of_Z 4) (F64.of_Z (Z.of_nat n)))
  = Normal (Buffer_alloc (4 * n)).
Proof.
  intros [Hn HK].
  assert (HKfloat : kMaxLength = 0 \/
            exists (q mq : positive),
              kMaxLength = Zpos q /\
              F64.of_Z kMaxLength = S754_finite false mq (Zpos (digits2_pos q) - 53) /\
              Zpos mq = Zpos q * 2 ^ (53 - Zpos (digits2_pos q))).
  { destruct kMaxLength as [|q|q]; [left; reflexivity| |lia].
    right. pose proof (digits2_pos_bounds q) as [Hq _].
    assert (Hdq : Zpos (digits2_pos q) <= 53).
    { destruct (Z.le_gt_cases (Zpos (digits2_pos q)) 53) as [H|H]; [exact H|].
      assert (2 ^ 54 <= 2 ^ Zpos (digits2_pos q)) by (apply Z.pow_le_mono_r; lia).
      change (2 ^ 54) with (2 * 2 ^ 53) in *. lia. }
    destruct (of_Z_pos q Hdq) as (mq & E & V & _).
    exists q, mq. auto. }
  destruct n as [|n'].
  - change (F64.mul (F64.of_Z 4) (F64.of_Z (Z.of_nat 0))) with (S754_zero false).
    unfold Buffer_new. change (F64.of_Z 0) with (S754_zero false).
    destruct HKfloat as [-> | (q & mq & -> & -> & _)]; reflexivity.
  - remember (S n') as n eqn:En.
    destruct (Z.of_nat n) as [|p|p] eqn:Ep; [lia| |lia].
    pose proof (digits2_pos_bounds p) as [Hp1 Hp2].
    set (d := Zpos (digits2_pos p)) in *.
    assert (Hd : d <= 51).
    { destruct (Z.le_gt_cases d 51) as [H|H]; [exact H|].
      assert (2 ^ 52 <= 2 ^ d) by (apply Z.pow_le_mono_r; lia).
      change (2 ^ 53) with (2 * 2 ^ 52) in *. lia. }
    assert (Hd1 : 1 <= d) by (unfold d; lia).
    destruct (of_Z_pos p ltac:(fold d; lia)) as (m & E & V & D).
    fold d in E, V. rewrite E, mul_4_canonical by (try exact D; lia).
    destruct HKfloat as [-> | (q & mq & -> & EK & VK)]; [lia|].
    pose proof (digits2_pos_bounds q) as [Hq1 Hq2].
    set (dq := Zpos (digits2_pos q)) in *.
    assert (Hpow : forall a b, 0 <= a -> a < b -> 2 * 2 ^ a <= 2 ^ b).
    { intros a b Ha Hab. rewrite <- Z.pow_succ_r by exact Ha.
      apply Z.pow_le_mono_r; lia. }
    assert (Hdq : d + 2 <= dq).
    { destruct (Z.le_gt_cases (d + 2) dq) as [H|H]; [exact H|].
      assert (Hdq1 : 1 <= dq) by (unfold dq; lia).
      assert (Hm : 2 ^ dq <= 2 ^ (d + 1)) by (apply Z.pow_le_mono_r; lia).
      rewrite Z.pow_add_r in Hm by lia. change (2 ^ 1) with 2 in Hm. lia. }
    unfold Buffer_new. rewrite EK.
    change (F64.of_Z 0) with (S754_zero false).
    assert (Hle : F64.leb (S754_finite false m (d - 53 + 2))
                          (S754_finite false mq (dq - 53)) = true).
    { unfold F64.leb, SFleb, SFcompare.
      destruct (Z.compare_spec (d - 53 + 2) (dq - 53)) as [Heq|Hlt|Hgt];
        [|reflexivity|lia].
      rewrite Pos.compare_cont_spec. cbn [Pos.switch_Eq].
      destruct (Pos.compare_spec m mq) as [_|_|Hgt]; [reflexivity|reflexivity|].
      apply Pos2Z.pos_lt_pos in Hgt. rewrite V, VK in Hgt.
      replace (53 - d) with (53 - dq + 2) in Hgt by lia.
      rewrite Z.pow_add_r in Hgt by lia. change (2 ^ 2) with 4 in Hgt.
      assert (0 < 2 ^ (53 - dq)) by (apply Z.pow_pos_nonneg; lia).
      nia. }
    rewrite Hle. cbn [F64.leb SFleb SFcompare andb].
    f_equal. unfold Buffer_alloc. f_equal.
    assert (Htrunc : F64.trunc (S754_finite false m (d - 53 + 2)) = 4 * Zpos p).
    { unfold F64.trunc. rewrite V.
      destruct (Z.leb_spec 0 (d - 53 + 2)) as [H0|H0].
      - replace (d - 53 + 2) with 0 by lia. rewrite Z.shiftl_0_r.
        replace (53 - d) with 2 by lia. change (2 ^ 2) with 4. lia.
      - rewrite Z.shiftr_div_pow2 by lia.
        replace (53 - d) with (2 + - (d - 53 + 2)) by lia.
        rewrite Z.pow_add_r by lia. change (2 ^ 2) with 4.
        rewrite Z.mul_assoc. rewrite Z.div_mul; [lia|].
        apply Z.pow_nonzero; lia. }
    rewrite Htrunc. lia.
Qed.



(** ** The loops over the pixel array *)

Lemma rgbToRgbw_loop_lookup (n : nat) :
  forall (i : nat) (data : list Z) (j : nat),
    rgbToRgbw_loop n i data !! j =
    if decide (i <= j < i + n)%nat then rgbToRgbw_pixel <$> data !! j else data !! j.
Proof.
  induction n as [|n IH]; intros i data j; simpl.
  - case_decide; [lia|done].
  - rewrite IH. destruct (data !! i) as [p|] eqn:Hi.
    + destruct (decide (j = i)) as [->|Hne].
      * rewrite list_lookup_insert_eq by (eapply lookup_lt_Some; eauto).
        rewrite Hi. simpl. repeat case_decide; try lia; done.
      * rewrite list_lookup_insert_ne by done. repeat case_decide; try lia; done.
    + repeat case_decide; try lia; try done.
      assert (j = i) by lia. subst. rewrite Hi. done.
Qed.

Lemma rgbToRgbw_fmap (data : list Z) : rgbToRgbw data = rgbToRgbw_pixel <$> data.
Proof.
  apply list_eq. intros j. unfold rgbToRgbw.
  rewrite rgbToRgbw_loop_lookup, list_lookup_fmap.
  case_decide; [done|]. rewrite lookup_ge_None_2 by lia. done.
Qed.

Lemma remap_loop_length (n : nat) :
  forall (i : nat) (tmp mapping data : list Z),
    length (remap_loop n i tmp mapping data) = length data.
Proof.
  induction n as [|n IH]; intros i tmp mapping data; simpl; [done|].
  rewrite IH. apply length_insert.
Qed.

Lemma remap_loop_lookup (n : nat) :
  forall (i : nat) (tmp mapping data : list Z) (j : nat),
    remap_loop n i tmp mapping data !! j =
    if decide (i <= j < i + n /\ j < length data)%nat
    then Some (remap_value tmp mapping j)
    else data !! j.
Proof.
  induction n as [|n IH]; intros i tmp mapping data j; simpl.
  - case_decide; [lia|done].
  - rewrite IH, length_insert. fold (remap_value tmp mapping i).
    destruct (decide (j = i)) as [->|Hne].
    + destruct (decide (i < length data)%nat) as [Hlt|Hge].
      * rewrite list_lookup_insert_eq by done. repeat case_decide; try lia; done.
      * rewrite list_insert_ge by lia. repeat case_decide; try lia; done.
    + rewrite list_lookup_insert_ne by done. repeat case_decide; try lia; done.
Qed.

Lemma remap_length (data mapping : list Z) : length (remap data mapping) = length data.
Proof. apply remap_loop_length. Qed.

Lemma remap_lookup (data mapping : list Z) (i : nat) :
  remap data mapping !! i =
  if decide (i < length data)%nat then Some (remap_value data mapping i) else None.
Proof.
  unfold remap. rewrite remap_loop_lookup.
  repeat case_decide; try lia; try done.
  apply lookup_ge_None_2. lia.
Qed.

Lemma typed_store_value_range (v : option Z) : is_uint32 (typed_store_value v).
Proof.
  destruct v as [z|]; simpl; [apply ToUint32_range|]. unfold is_uint32. lia.
Qed.

Lemma remap_uint32 (data mapping : list Z) : Forall is_uint32 (remap data mapping).
Proof.
  apply Forall_lookup_2. intros i x. rewrite remap_lookup.
  case_decide; [|done]. intros [= <-]. apply typed_store_value_range.
Qed.

Lemma rgbToRgbw_pixel_uint32 (p : Z) : is_uint32 p -> is_uint32 (rgbToRgbw_pixel p).
Proof.
  intros Hp. unfold rgbToRgbw_pixel. cbv zeta.
  destruct (_ =? 0); [exact Hp|apply ToUint32_range].
Qed.

Lemma rgbToRgbw_uint32 (data : list Z) :
  Forall is_uint32 data -> Forall is_uint32 (rgbToRgbw data).
Proof.
  intros H. rewrite rgbToRgbw_fmap. apply Forall_fmap.
  eapply Forall_impl; [exact H|]. intros x Hx. apply rgbToRgbw_pixel_uint32, Hx.
Qed.

Lemma rgbToRgbw_length (data : list Z) : length (rgbToRgbw data) = length data.
Proof. rewrite rgbToRgbw_fmap. apply length_fmap. Qed.

(** ** Framing *)

Lemma writeUInt32LE_ok (b : list Z) (v : Z) (off : nat) :
  is_uint32 v -> (off + 4 <= length b)%nat ->
  exists b',
    writeUInt32LE b v off = Normal b' /\ length b' = length b /\
    (forall k : nat, (k < 4)%nat -> b' !! (off + k)%nat = Some (byte_of (Z.of_nat k) v)) /\
    (forall j : nat, (j < off \/ off + 4 <= j)%nat -> b' !! j = b !! j).
Proof.
  intros Hv Hoff. unfold writeUInt32LE.
  assert (negb ((0 <=? v) && (v <? 2 ^ 32)) = false) as ->.
  { unfold is_uint32 in Hv. apply negb_false_iff, andb_true_intro.
    split; [apply Z.leb_le|apply Z.ltb_lt]; lia. }
  assert (negb (off + 4 <=? length b)%nat = false) as ->.
  { apply negb_false_iff, Nat.leb_le. lia. }
  eexists. split; [reflexivity|]. split; [by rewrite !length_insert|]. split.
  - intros k Hk. destruct k as [|[|[|[|k]]]]; try lia.
    + replace (off + 0)%nat with off by lia.
      rewrite !list_lookup_insert_ne by lia.
      rewrite list_lookup_insert_eq by lia. done.
    + rewrite !list_lookup_insert_ne by lia.
      rewrite list_lookup_insert_eq by (rewrite ?length_insert; lia). done.
    + rewrite !list_lookup_insert_ne by lia.
      rewrite list_lookup_insert_eq by (rewrite ?length_insert; lia). done.
    + rewrite list_lookup_insert_eq by (rewrite ?length_insert; lia). done.
  - intros j Hj. rewrite !list_lookup_insert_ne by lia. done.
Qed.

Lemma encode_loop_ok (n : nat) :
  forall (i : nat) (data b : list Z),
    Forall is_uint32 data -> (i + n <= length data)%nat -> (4 * (i + n) <= length b)%nat ->
    exists b',
      encode_loop n i data (Some b) = (Some b', Normal tt) /\ length b' = length b /\
      (forall (p k : nat) (w : Z),
          (i <= p < i + n)%nat -> (k < 4)%nat -> data !! p = Some w ->
          b' !! (4 * p + k)%nat = Some (byte_of (Z.of_nat k) w)) /\
      (forall j : nat, (j < 4 * i \/ 4 * (i + n) <= j)%nat -> b' !! j = b !! j).
Proof.
  induction n as [|n IH]; intros i data b Hwf Hi Hb; cbn [encode_loop].
  - exists b. split; [reflexivity|]. split; [reflexivity|]. split; [intros; lia|done].
  - destruct (lookup_lt_is_Some_2 data i ltac:(lia)) as [v Hv]. rewrite Hv.
    pose proof (Forall_lookup_1 _ _ _ _ Hwf Hv) as Hrange.
    destruct (writeUInt32LE_ok b v (4 * i) Hrange ltac:(lia)) as (b1 & -> & Hl1 & Hw1 & Hk1).
    destruct (IH (S i) data b1 Hwf ltac:(lia) ltac:(lia)) as (b' & -> & Hl' & Hw' & Hk').
    exists b'. split; [reflexivity|]. split; [lia|]. split.
    + intros p k w Hp Hk Hpw. destruct (decide (p = i)) as [->|Hne].
      * rewrite Hk' by lia. rewrite Hw1 by lia. congruence.
      * apply Hw'; [lia|lia|done].
    + intros j Hj. rewrite Hk' by lia. apply Hk1. lia.
Qed.

Lemma encode_ok (data b : list Z) :
  Forall is_uint32 data -> length b = (4 * length data)%nat ->
  exists frame,
    encode data (Some b) = (Some frame, Normal tt) /\ length frame = (4 * length data)%nat /\
    (forall (i k : nat) (w : Z),
        (k < 4)%nat -> data !! i = Some w ->
        frame !! (4 * i + k)%nat = Some (byte_of (Z.of_nat k) w)).
Proof.
  intros Hwf Hb.
  destruct (encode_loop_ok (length data) 0 data b Hwf ltac:(lia) ltac:(lia))
    as (frame & He & Hl & Hw & _).
  exists frame. split; [exact He|]. split; [lia|].
  intros i k w Hk Hi. apply Hw; [|done|done].
  pose proof (lookup_lt_Some _ _ _ Hi). lia.
Qed.

(** ** What [render] does to the caller's array *)

Lemma transformed_uint32 (m : Module) (data : list Z) :
  Forall is_uint32 data -> Forall is_uint32 (transformed m data).
Proof.
  intros H. unfold transformed. cbv zeta.
  destruct (_rgbToRgbw m), (_indexMapping m);
    try apply rgbToRgbw_uint32; try apply remap_uint32; exact H.
Qed.

Lemma transformed_length (m : Module) (data : list Z) :
  length (transformed m data) = length data.
Proof.
  unfold transformed. cbv zeta.
  destruct (_rgbToRgbw m), (_indexMapping m);
    rewrite ?rgbToRgbw_length, ?remap_length; reflexivity.
Qed.

Lemma render_data (data : list Z) (m : Module) :
  _isInitialized m = true -> (render data m).1.2 = transformed m data.
Proof.
  intros Hinit. unfold render. rewrite Hinit. cbv zeta. simpl negb. cbv iota.
  change (_indexMapping (emit "beforeRender" data m)) with (_indexMapping m).
  change (_rgbToRgbw (emit "beforeRender" data m)) with (_rgbToRgbw m).
  fold (transformed m data).
  destruct (encode _ _) as [buf [[]|e]]; reflexivity.
Qed.

Lemma render_ok (data b : list Z) (m : Module) :
  _isInitialized m = true -> _outputBuffer m = Some b ->
  length b = (4 * length data)%nat -> Forall is_uint32 data ->
  exists frame,
    encode (transformed m data) (Some b) = (Some frame, Normal tt) /\
    render data m =
      (emit "render" (transformed m data)
         (call_bindings (Brender (Some frame))
            (set_outputBuffer (Some frame) (emit "beforeRender" data m))),
       transformed m data, Normal tt).
Proof.
  intros Hinit Hbuf Hlen Hwf.
  destruct (encode_ok (transformed m data) b) as (frame & He & _).
  { apply transformed_uint32, Hwf. }
  { rewrite transformed_length. exact Hlen. }
  exists frame. split; [exact He|].
  unfold render. rewrite Hinit. cbv zeta. simpl negb. cbv iota.
  change (_indexMapping (emit "beforeRender" data m)) with (_indexMapping m).
  change (_rgbToRgbw (emit "beforeRender" data m)) with (_rgbToRgbw m).
  change (_outputBuffer (emit "beforeRender" data m)) with (_outputBuffer m).
  fold (transformed m data). rewrite Hbuf, He. reflexivity.
Qed.


(** ** [init] *)

Lemma Buffer_new_throws (kMaxLength : Z) (size : F64.t) (e : Exception) :
  Buffer_new kMaxLength size = Throw e -> e = JsRangeError.
Proof. unfold Buffer_new. destruct (_ && _); [discriminate|]. intros [= <-]. reflexivity. Qed.

(** A size that [new Buffer] rejects: [init] has set [_isInitialized]
    and nothing else when the [RangeError] leaves it. *)
Lemma init_rejected (SK6812W : option Z) (kMaxLength : Z) (numLeds : F64.t)
      (options : JSValue) (m : Module) (e : Exception) :
  Buffer_new kMaxLength (frame_size numLeds) = Throw e ->
  init SK6812W kMaxLength numLeds options m = (set_isInitialized true m, Throw e).
Proof.
  intros Hb. unfold init, bind, modify, lift. cbv zeta.
  unfold frame_size in Hb. rewrite Hb. reflexivity.
Qed.

Lemma init_null (SK6812W : option Z) (kMaxLength : Z) (numLeds : F64.t)
      (m : Module) (b : list Z) :
  Buffer_new kMaxLength (frame_size numLeds) = Normal b ->
  init SK6812W kMaxLength numLeds JSNull m =
  (set_outputBuffer (Some b) (set_isInitialized true m), Throw JsTypeError).
Proof.
  intros Hb. unfold init, bind, modify, lift. cbv zeta.
  unfold frame_size in Hb. rewrite Hb. reflexivity.
Qed.

Lemma init_result (SK6812W : option Z) (kMaxLength : Z) (numLeds : F64.t)
      (options : JSValue) (m : Module) (b : list Z) :
  Buffer_new kMaxLength (frame_size numLeds) = Normal b ->
  options <> JSNull ->
  init SK6812W kMaxLength numLeds options m =
  (mkModule true (_indexMapping m) (Some b)
     (option_enabled options "gammaCorrection")
     (option_enabled options "rgbToRgbw" && strip_type_is_SK6812W SK6812W options)
     (bindings_calls m ++ [Binit numLeds (defaulted options)]) (emitted m),
   Normal tt).
Proof.
  intros Hb Hnull. unfold frame_size in Hb.
  destruct options as [| |bo|z|s|props]; try contradiction;
    try (unfold init, bind, modify, lift; cbv zeta; rewrite Hb; reflexivity).
  change (defaulted (JSObject props)) with (JSObject props).
  unfold init.
  change (negb (String.eqb (typeof (JSObject props)) "object")) with false.
  cbv iota zeta.
  unfold option_enabled, strip_type_is_SK6812W, prop_value,
    bind, modify, lift, ret, get_prop.
  rewrite Hb.
  destruct (assoc "gammaCorrection" props) as [gc|];
    destruct (assoc "rgbToRgbw" props) as [r|]; cbn [ToBoolean andb];
    try destruct (ToBoolean r); try destruct (assoc "strip_type" props); reflexivity.
Qed.

(** What every call of [init] does, whether it returns or throws. *)
Lemma init_fields (SK6812W : option Z) (kMaxLength : Z) (numLeds : F64.t)
      (options : JSValue) (m : Module) :
  let m' := (init SK6812W kMaxLength numLeds options m).1 in
  _isInitialized m' = true /\
  _indexMapping m' = _indexMapping m /\
  _outputBuffer m' =
    (match Buffer_new kMaxLength (frame_size numLeds) with
     | Normal b => Some b
     | Throw _ => _outputBuffer m
     end).
Proof.
  destruct (Buffer_new kMaxLength (frame_size numLeds)) as [b|e] eqn:Hb.
  - destruct options;
      first [rewrite (init_null _ _ _ _ b Hb)
            | rewrite (init_result _ _ _ _ _ b Hb) by discriminate]; repeat split.
  - rewrite (init_rejected _ _ _ _ _ e Hb). repeat split.
Qed.

(** A count of LEDs that fits gets four bytes per LED. *)
Lemma init_count (SK6812W : option Z) (kMaxLength : Z) (n : nat)
      (options : JSValue) (m : Module) :
  4 * Z.of_nat n <= kMaxLength < 2 ^ 53 ->
  options <> JSNull ->
  init SK6812W kMaxLength (F64.of_Z (Z.of_nat n)) options m =
  (mkModule true (_indexMapping m) (Some (Buffer_alloc (4 * n)))
     (option_enabled options "gammaCorrection")
     (option_enabled options "rgbToRgbw" && strip_type_is_SK6812W SK6812W options)
     (bindings_calls m ++ [Binit (F64.of_Z (Z.of_nat n)) (defaulted options)]) (emitted m),
   Normal tt).
Proof.
  intros HK Hnull. apply init_result; [|exact Hnull].
  apply Buffer_new_count, HK.
Qed.

(** ** Claims *)

(** C5. For a pixel array and an index mapping at least as long as the
    array whose values are valid indices of it, [remap] puts at every
    position [i] the value the array held at position [mapping[i]] before
    the call (the read goes to the copy made on entry); and a mapping that
    is the identity on the array's positions leaves the array unchanged. *)
Theorem remap_reads_snapshot (data mapping : list Z) :
  Forall is_uint32 data ->
  (length data <= length mapping)%nat ->
  Forall (fun j => 0 <= j < Z.of_nat (length data)) mapping ->
  length (remap data mapping) = length data /\
  (forall (i : nat) (j : Z),
      (i < length data)%nat -> mapping !! i = Some j ->
      remap data mapping !! i = data !! Z.to_nat j) /\
  ((forall i : nat, (i < length data)%nat -> mapping !! i = Some (Z.of_nat i)) ->
   remap data mapping = data).
Proof.
  intros Hwf Hlen Hrange.
  assert (Hread : forall (i : nat) (j : Z),
             (i < length data)%nat -> mapping !! i = Some j ->
             remap data mapping !! i = data !! Z.to_nat j).
  { intros i j Hi Hj. rewrite remap_lookup. case_decide; [|lia].
    unfold remap_value. rewrite Hj.
    pose proof (Forall_lookup_1 _ _ _ _ Hrange Hj) as Hjr. cbv beta in Hjr.
    unfold typed_read. destruct (Z.ltb_spec j 0) as [?|_]; [lia|].
    destruct (lookup_lt_is_Some_2 data (Z.to_nat j) ltac:(lia)) as [v Hv].
    rewrite Hv. simpl. f_equal. apply ToUint32_small.
    exact (Forall_lookup_1 _ _ _ _ Hwf Hv). }
  split; [apply remap_length|]. split; [exact Hread|].
  intros Hid. apply list_eq. intros i.
  destruct (decide (i < length data)%nat) as [Hi|Hi].
  - rewrite (Hread i (Z.of_nat i) Hi (Hid i Hi)). rewrite Nat2Z.id. reflexivity.
  - rewrite remap_lookup. case_decide; [lia|]. symmetry. apply lookup_ge_None_2. lia.
Qed.

Lemma remap_reads_snapshot_witness :
  remap [10; 20; 30] [2; 1; 0] !! 0%nat = [10; 20; 30] !! Z.to_nat 2.
Proof.
  refine (proj1 (proj2 (remap_reads_snapshot [10; 20; 30] [2; 1; 0] _ _ _)) 0%nat 2 _ _).
  - repeat constructor; unfold is_uint32; lia.
  - simpl. lia.
  - repeat constructor; simpl; lia.
  - simpl. lia.
  - reflexivity.
Defined.

Example remap_reverse : remap [10; 20; 30] [2; 1; 0] = [30; 20; 10].
Proof. reflexivity. Qed.

(** C7. [init] allocates a frame of [4 * numLeds] bytes for a count of
    LEDs that the buffer limit admits; whenever [render]
    runs on an initialized module whose frame has four bytes per pixel of
    the array it is given, it completes normally, the frame keeps its
    length, the frame passed to the bindings holds every pixel word of the
    rendered array as four bytes, least significant first, at offset
    [4 * i]; and the two pixels [0x00010203; 0x04050607] give the bytes
    [03 02 01 00 07 06 05 04]. *)
Theorem render_frame_little_endian :
  (forall (SK6812W : option Z) (kMaxLength : Z) (numLeds : nat)
          (options : JSValue) (m : Module),
      4 * Z.of_nat numLeds <= kMaxLength < 2 ^ 53 ->
      exists b,
        _outputBuffer (init SK6812W kMaxLength (F64.of_Z (Z.of_nat numLeds)) options m).1
        = Some b /\
        length b = (4 * numLeds)%nat) /\
  (forall (m : Module) (data b : list Z),
      _isInitialized m = true -> _outputBuffer m = Some b ->
      length b = (4 * length data)%nat -> Forall is_uint32 data ->
      exists (m' : Module) (data' frame : list Z),
        render data m = (m', data', Normal tt) /\
        _outputBuffer m' = Some frame /\
        length frame = (4 * length data)%nat /\
        length data' = length data /\
        last (bindings_calls m') = Some (Brender (Some frame)) /\
        (forall (i k : nat) (w : Z),
            (k < 4)%nat -> data' !! i = Some w ->
            frame !! (4 * i + k)%nat = Some (byte_of (Z.of_nat k) w))) /\
  (forall (SK6812W : option Z) (kMaxLength : Z),
      8 <= kMaxLength < 2 ^ 53 ->
      let m := (init SK6812W kMaxLength (F64.of_Z 2) (JSObject []) fresh).1 in
      _outputBuffer (render [0x00010203; 0x04050607] m).1.1
      = Some [0x03; 0x02; 0x01; 0x00; 0x07; 0x06; 0x05; 0x04]).
Proof.
  split; [|split].
  - intros SK6812W kMaxLength numLeds options m HK.
    destruct (init_fields SK6812W kMaxLength (F64.of_Z (Z.of_nat numLeds)) options m)
      as (_ & _ & Hb).
    unfold frame_size in Hb. rewrite (Buffer_new_count kMaxLength numLeds HK) in Hb.
    eexists. split; [exact Hb|]. apply length_replicate.
  - intros m data b Hinit Hbuf Hlen Hwf.
    destruct (render_ok data b m Hinit Hbuf Hlen Hwf) as (frame & He & Hr).
    destruct (encode_ok (transformed m data) b) as (frame' & He' & Hl & Hbytes).
    { apply transformed_uint32, Hwf. }
    { rewrite transformed_length. exact Hlen. }
    assert (frame' = frame) as -> by congruence.
    eexists _, _, frame. split; [exact Hr|].
    split; [reflexivity|]. split; [rewrite Hl, transformed_length; reflexivity|].
    split; [apply transformed_length|]. split; [apply last_snoc|].
    exact Hbytes.
  - intros SK6812W kMaxLength HK m. subst m.
    change (F64.of_Z 2) with (F64.of_Z (Z.of_nat 2)).
    rewrite (init_count SK6812W kMaxLength 2 (JSObject []) fresh) by (try discriminate; lia).
    reflexivity.
Qed.

Lemma render_frame_little_endian_witness :
  exists (m' : Module) (data' frame : list Z),
    render [0x00010203; 0x04050607]
      (init None 0x7fffffff (F64.of_Z 2) (JSObject []) fresh).1
    = (m', data', Normal tt) /\
    _outputBuffer m' = Some frame /\
    length frame = 8%nat /\
    length data' = 2%nat /\
    last (bindings_calls m') = Some (Brender (Some frame)) /\
    (forall (i k : nat) (w : Z),
        (k < 4)%nat -> data' !! i = Some w ->
        frame !! (4 * i + k)%nat = Some (byte_of (Z.of_nat k) w)).
Proof.
  refine (proj1 (proj2 render_frame_little_endian)
            (init None 0x7fffffff (F64.of_Z 2) (JSObject []) fresh).1
            [0x00010203; 0x04050607] (Buffer_alloc 8) _ _ _ _).
  - reflexivity.
  - reflexivity.
  - reflexivity.
  - repeat constructor; unfold is_uint32; lia.
Defined.

(** C6. [render] and [setBrightness] throw the error of an operation
    before initialization exactly when [_isInitialized] is false; the
    module, the bindings and the pixel array are then left as they were.
    A fresh module is not initialized, a module is initialized after
    [init], and it is not after [reset]. *)
Theorem not_initialized_guard :
  (forall (data : list Z) (m : Module),
      _isInitialized m = false ->
      render data m = (m, data, Throw not_initialized_render)) /\
  (forall (data : list Z) (m : Module) (e : Exception),
      _isInitialized m = true -> (render data m).2 = Throw e -> ~ NotInitializedError e) /\
  (forall (brightness : Z) (autoRender : JSValue) (m : Module),
      _isInitialized m = false ->
      setBrightness brightness autoRender m = (m, Throw not_initialized_setBrightness)) /\
  (forall (brightness : Z) (autoRender : JSValue) (m : Module),
      _isInitialized m = true ->
      (setBrightness brightness autoRender m).2 = Normal tt) /\
  NotInitializedError not_initialized_render /\
  NotInitializedError not_initialized_setBrightness /\
  _isInitialized fresh = false /\
  (forall (SK6812W : option Z) (kMaxLength : Z) (numLeds : F64.t)
          (options : JSValue) (m : Module),
      _isInitialized (init SK6812W kMaxLength numLeds options m).1 = true) /\
  (forall m : Module, _isInitialized (reset m).1 = false).
Proof.
  repeat split.
  - intros data m H. unfold render. rewrite H. reflexivity.
  - intros data m e Hinit Hthrow HE.
    unfold render in Hthrow. rewrite Hinit in Hthrow. cbv zeta in Hthrow.
    simpl negb in Hthrow. cbv iota in Hthrow.
    destruct (encode _ _) as [buf [[]|e']] eqn:He; simpl in Hthrow; [discriminate|].
    injection Hthrow as ->.
    assert (Hk : e = JsTypeError \/ e = JsRangeError).
    { clear -He. unfold encode in He.
      revert He. generalize 0%nat.
      generalize (_outputBuffer (emit "beforeRender" data m)).
      generalize (length (if _rgbToRgbw (emit "beforeRender" data m)
                          then rgbToRgbw match _indexMapping (emit "beforeRender" data m) with
                                         | Some mapping => remap data mapping
                                         | None => data
                                         end
                          else match _indexMapping (emit "beforeRender" data m) with
                               | Some mapping => remap data mapping
                               | None => data
                               end)).
      intros n. induction n as [|n IH]; intros o i; simpl; [discriminate|].
      destruct o as [b|]; [|intros [= _ <-]; auto].
      destruct (_ !! i) as [v|]; [|intros [= _ <-]; auto].
      unfold writeUInt32LE.
      destruct (negb _); [intros [= _ <-]; auto|].
      destruct (negb _); [intros [= _ <-]; auto|].
      apply IH. }
    destruct HE as [HE|HE], Hk as [Hk|Hk]; rewrite Hk in HE; discriminate.
  - intros brightness autoRender m H.
    unfold setBrightness, bind, read, throw. rewrite H. reflexivity.
  - intros brightness autoRender m H.
    unfold setBrightness, bind, read, throw, modify, ret. rewrite H. simpl.
    destruct (strict_equals autoRender (JSBool false)); reflexivity.
  - left. reflexivity.
  - right. reflexivity.
  - intros. apply init_fields.
Qed.

Lemma not_initialized_guard_witness :
  render [0x00ff0000] fresh = (fresh, [0x00ff0000], Throw not_initialized_render).
Proof.
  apply (proj1 not_initialized_guard [0x00ff0000] fresh). reflexivity.
Defined.



(** ** Sequences of calls *)

Lemma render_keeps_mapping (data : list Z) (m : Module) :
  _indexMapping (render data m).1.1 = _indexMapping m.
Proof.
  unfold render.
  destruct (_isInitialized m); cbn [negb]; [|reflexivity].
  cbv zeta. destruct (encode _ _) as [buf [[]|e]]; reflexivity.
Qed.

Lemma setBrightness_keeps_mapping (brightness : Z) (autoRender : JSValue) (m : Module) :
  _indexMapping (setBrightness brightness autoRender m).1 = _indexMapping m.
Proof.
  unfold setBrightness, bind, read, throw, modify, ret.
  destruct (_isInitialized m); cbn [negb]; [|reflexivity].
  destruct (strict_equals autoRender (JSBool false)); reflexivity.
Qed.

Lemma run_keeps_mapping (SK6812W : option Z) (kMaxLength : Z) (calls : list Call) :
  forall m : Module,
    Forall (fun c => is_setIndexMapping c = false) calls ->
    _indexMapping (run SK6812W kMaxLength calls m) = _indexMapping m.
Proof.
  unfold run. induction calls as [|c calls IH]; intros m Hc; cbn [fold_left].
  - reflexivity.
  - inversion Hc as [|c' calls' Hhead Htail]; subst.
    rewrite IH by exact Htail.
    destruct c as [n o|mp|data|br r|]; cbn [run_call].
    + apply init_fields.
    + discriminate Hhead.
    + apply render_keeps_mapping.
    + apply setBrightness_keeps_mapping.
    + reflexivity.
Qed.

(** The pixel [render] leaves at position [i] of the array when a mapping
    is registered: the pixel that was at position [mapping[i]], converted
    when the conversion is on. *)
Lemma rendered_pixel (m : Module) (data mapping : list Z) (i : nat) (j v : Z) :
  _indexMapping m = Some mapping -> Forall is_uint32 data ->
  (i < length data)%nat -> mapping !! i = Some j -> 0 <= j ->
  data !! Z.to_nat j = Some v ->
  transformed m data !! i = Some (if _rgbToRgbw m then rgbToRgbw_pixel v else v).
Proof.
  intros Hm Hwf Hi Hj Hj0 Hv.
  assert (Hr : remap data mapping !! i = Some v).
  { rewrite remap_lookup. case_decide; [|lia].
    unfold remap_value. rewrite Hj. unfold typed_read.
    destruct (Z.ltb_spec j 0) as [?|_]; [lia|]. rewrite Hv. simpl.
    f_equal. apply ToUint32_small. exact (Forall_lookup_1 _ _ _ _ Hwf Hv). }
  unfold transformed. rewrite Hm. cbv zeta.
  destruct (_rgbToRgbw m); [|exact Hr].
  rewrite rgbToRgbw_fmap, list_lookup_fmap, Hr. reflexivity.
Qed.

(** C10. [reset] clears [_isInitialized] and the frame and keeps the
    registered index mapping; [setIndexMapping] completes normally in every
    state and replaces the mapping.  No sequence of calls of [init],
    [render], [setBrightness] and [reset] changes it.  Hence, from any
    state that holds a mapping and after any such calls, a [render] on the
    initialized module puts at every position [i] of the array the pixel
    that was at position [mapping[i]] (converted when the RGBW conversion
    is on), and when the frame has four bytes per pixel the bindings are
    handed a frame with the bytes of that pixel at offset [4 * i].  For
    instance, with the mapping [2, 0, 1] registered before [init], a first
    [render], a [reset] and a second [init], rendering [1, 2, 3] gives
    [3, 1, 2], until another mapping is registered. *)
Theorem index_mapping_persists :
  (forall m : Module,
      _isInitialized (reset m).1 = false /\
      _outputBuffer (reset m).1 = None /\
      _indexMapping (reset m).1 = _indexMapping m /\
      (reset m).2 = Normal tt) /\
  (forall (mapping : option (list Z)) (m : Module),
      (setIndexMapping mapping m).2 = Normal tt /\
      _indexMapping (setIndexMapping mapping m).1 = mapping /\
      _isInitialized (setIndexMapping mapping m).1 = _isInitialized m) /\
  (forall (SK6812W : option Z) (kMaxLength : Z) (calls : list Call) (m : Module),
      Forall (fun c => is_setIndexMapping c = false) calls ->
      _indexMapping (run SK6812W kMaxLength calls m) = _indexMapping m) /\
  (forall (SK6812W : option Z) (kMaxLength : Z) (calls : list Call)
          (mapping : list Z) (m0 : Module) (data : list Z),
      _indexMapping m0 = Some mapping ->
      Forall (fun c => is_setIndexMapping c = false) calls ->
      let m := run SK6812W kMaxLength calls m0 in
      _isInitialized m = true ->
      Forall is_uint32 data ->
      forall (i : nat) (j v : Z),
        (i < length data)%nat -> mapping !! i = Some j -> 0 <= j ->
        data !! Z.to_nat j = Some v ->
        let pixel := if _rgbToRgbw m then rgbToRgbw_pixel v else v in
        (render data m).1.2 !! i = Some pixel /\
        (forall b : list Z,
            _outputBuffer m = Some b -> length b = (4 * length data)%nat ->
            exists frame : list Z,
              (render data m).2 = Normal tt /\
              last (bindings_calls (render data m).1.1) = Some (Brender (Some frame)) /\
              forall k : nat,
                (k < 4)%nat ->
                frame !! (4 * i + k)%nat = Some (byte_of (Z.of_nat k) pixel))) /\
  (forall (SK6812W : option Z) (kMaxLength : Z),
      12 <= kMaxLength < 2 ^ 53 ->
      let m :=
        run SK6812W kMaxLength
          [CallSetIndexMapping (Some [2; 0; 1]);
           CallInit (F64.of_Z 3) (JSObject []);
           CallRender [10; 20; 30];
           CallReset;
           CallInit (F64.of_Z 3) (JSObject [])] fresh in
      (render [1; 2; 3] m).1.2 = [3; 1; 2] /\
      _outputBuffer (render [1; 2; 3] m).1.1 = Some [3; 0; 0; 0; 1; 0; 0; 0; 2; 0; 0; 0] /\
      (render [1; 2; 3] (setIndexMapping (Some [1; 0; 2]) m).1).1.2 = [2; 1; 3]).
Proof.
  split; [|split; [|split; [|split]]].
  - intros m. repeat split.
  - intros mapping m. repeat split.
  - intros SK6812W kMaxLength calls m. apply run_keeps_mapping.
  - intros SK6812W kMaxLength calls mapping m0 data Hm0 Hcalls m Hinit Hwf
           i j v Hi Hj Hj0 Hv pixel.
    assert (Hmap : _indexMapping m = Some mapping).
    { unfold m. rewrite run_keeps_mapping by exact Hcalls. exact Hm0. }
    pose proof (rendered_pixel m data mapping i j v Hmap Hwf Hi Hj Hj0 Hv) as Hpix.
    fold pixel in Hpix.
    split; [rewrite render_data by exact Hinit; exact Hpix|].
    intros b Hbuf Hlen.
    destruct (render_ok data b m Hinit Hbuf Hlen Hwf) as (frame & He & Hr).
    destruct (encode_ok (transformed m data) b) as (frame' & He' & _ & Hbytes).
    { apply transformed_uint32, Hwf. }
    { rewrite transformed_length. exact Hlen. }
    assert (frame' = frame) as -> by congruence.
    exists frame. rewrite Hr. split; [reflexivity|]. split; [apply last_snoc|].
    intros k Hk. apply Hbytes; [exact Hk|exact Hpix].
  - intros SK6812W kMaxLength HK m. subst m.
    unfold run. cbn [fold_left run_call].
    change (F64.of_Z 3) with (F64.of_Z (Z.of_nat 3)).
    rewrite !(init_count SK6812W kMaxLength 3) by (try discriminate; lia).
    repeat split; vm_compute; reflexivity.
Qed.

Lemma index_mapping_persists_witness :
  (render [10; 20; 30]
     (run None 0x7fffffff [CallReset; CallInit (F64.of_Z 3) (JSObject [])]
        (setIndexMapping (Some [2; 0; 1]) fresh).1)).1.2 !! 0%nat = Some 30.
Proof.
  refine (proj1 (proj1 (proj2 (proj2 (proj2 index_mapping_persists)))
            None 0x7fffffff [CallReset; CallInit (F64.of_Z 3) (JSObject [])]
            [2; 0; 1] (setIndexMapping (Some [2; 0; 1]) fresh).1 [10; 20; 30]
            _ _ _ _ 0%nat 2 30 _ _ _ _)).
  - reflexivity.
  - repeat constructor.
  - reflexivity.
  - repeat constructor; unfold is_uint32; lia.
  - simpl. lia.
  - reflexivity.
  - lia.
  - reflexivity.
Defined.

(** ** The conversion flag *)

(** After an [init] that returned, the conversion flag is set exactly
    when the [rgbToRgbw] option is truthy and the [strip_type] option is
    identical to [STRIP_TYPES.SK6812W]; [render] then converts the
    (remapped) array when the flag is set and leaves it unconverted
    otherwise. *)
Lemma rgbToRgbw_flag_after_init
  (SK6812W : option Z) (kMaxLength : Z) (numLeds : F64.t) (options : JSValue)
  (m m' : Module) :
  init SK6812W kMaxLength numLeds options m = (m', Normal tt) ->
  _rgbToRgbw m' =
    option_enabled options "rgbToRgbw" && strip_type_is_SK6812W SK6812W options /\
  (forall data : list Z,
      let remapped :=
        match _indexMapping m' with
        | Some mapping => remap data mapping
        | None => data
        end in
      (render data m').1.2 =
      if option_enabled options "rgbToRgbw" && strip_type_is_SK6812W SK6812W options
      then rgbToRgbw remapped
      else remapped).
Proof.
  intros Hinit.
  destruct (Buffer_new kMaxLength (frame_size numLeds)) as [b|e] eqn:Hb.
  - assert (Hnull : options <> JSNull).
    { intros ->. rewrite (init_null _ _ _ _ b Hb) in Hinit. discriminate. }
    rewrite (init_result _ _ _ _ _ b Hb Hnull) in Hinit.
    injection Hinit as <-.
    split; [reflexivity|].
    intros data remapped. rewrite render_data by reflexivity. reflexivity.
  - rewrite (init_rejected _ _ _ _ _ e Hb) in Hinit. discriminate.
Qed.

(** C2 (the code departs from it).  The strip type is compared with
    [STRIP_TYPES.SK6812W] by [===], and with the stub bindings that
    constant is [undefined]: an options object that asks for [rgbToRgbw]
    and names no strip type at all then passes the test, and [render]
    converts the array: one pixel [0x00808080] becomes [0x80000000] and
    the frame [00 00 00 80].  Moreover the flag is only assigned at the
    end of [init]: when a later [init] throws on [null] options, the flag
    of the earlier configuration stays and [render] still converts. *)
Theorem rgbToRgbw_applied_without_strip_type (kMaxLength : Z) :
  4 <= kMaxLength < 2 ^ 53 ->
  let options := JSObject [("rgbToRgbw", JSBool true)] in
  let m := (init None kMaxLength (F64.of_Z 1) options fresh).1 in
  (init None kMaxLength (F64.of_Z 1) options fresh).2 = Normal tt /\
  prop_value options "strip_type" = JSUndefined /\
  STRIP_TYPES_SK6812W None = JSUndefined /\
  _rgbToRgbw m = true /\
  (render [0x00808080] m).2 = Normal tt /\
  (render [0x00808080] m).1.2 = [0x80000000] /\
  _outputBuffer (render [0x00808080] m).1.1 = Some [0x00; 0x00; 0x00; 0x80] /\
  let configured :=
    (init (Some 5) kMaxLength (F64.of_Z 1)
       (JSObject [("rgbToRgbw", JSBool true); ("strip_type", JSNumber 5)]) fresh).1 in
  let again := init (Some 5) kMaxLength (F64.of_Z 1) JSNull configured in
  again.2 = Throw JsTypeError /\
  _rgbToRgbw again.1 = true /\
  (render [0x00808080] again.1).1.2 = [0x80000000].
Proof.
  intros HK options m. subst options m.
  assert (Hb : Buffer_new kMaxLength (frame_size (F64.of_Z 1)) = Normal (Buffer_alloc 4)).
  { apply (Buffer_new_count kMaxLength 1). lia. }
  pose proof (init_result None kMaxLength (F64.of_Z 1)
                (JSObject [("rgbToRgbw", JSBool true)]) fresh _ Hb ltac:(discriminate)) as E1.
  pose proof (init_result (Some 5) kMaxLength (F64.of_Z 1)
                (JSObject [("rgbToRgbw", JSBool true); ("strip_type", JSNumber 5)])
                fresh _ Hb ltac:(discriminate)) as E2.
  set (r1 := init None kMaxLength _ _ fresh) in *.
  set (r2 := init (Some 5) kMaxLength _ (JSObject _) fresh) in *.
  clearbody r1 r2. subst r1 r2. cbv zeta.
  match goal with |- context [init (Some 5) kMaxLength (F64.of_Z 1) JSNull ?m0] =>
    pose proof (init_null (Some 5) kMaxLength (F64.of_Z 1) m0 _ Hb) as E3;
    set (r3 := init (Some 5) kMaxLength (F64.of_Z 1) JSNull m0) in * end.
  clearbody r3. subst r3.
  repeat split; vm_compute; reflexivity.
Qed.

Lemma rgbToRgbw_applied_without_strip_type_witness :
  (render [0x00808080]
     (init None 0x7fffffff (F64.of_Z 1) (JSObject [("rgbToRgbw", JSBool true)]) fresh).1).1.2
  = [0x80000000].
Proof.
  refine (proj1 (proj2 (proj2 (proj2 (proj2 (proj2
            (rgbToRgbw_applied_without_strip_type 0x7fffffff _))))))).
  lia.
Defined.

(** C1 (the code departs from it).  With gamma correction configured,
    [render] leaves the pixel array, the frame and the value it returns
    uncorrected: the array built by [data.map(gammaCorrect)] is dropped.
    For one pixel [0x00808080] the frame holds [80 80 80 00] although
    [gammaCorrect] maps that pixel to [0x00373737]. *)
Theorem render_drops_gamma_correction (SK6812W : option Z) (kMaxLength : Z) :
  4 <= kMaxLength < 2 ^ 53 ->
  let m := (init SK6812W kMaxLength (F64.of_Z 1)
              (JSObject [("gammaCorrection", JSBool true)]) fresh).1 in
  _useGammaCorrection m = true /\
  gammaCorrect 0x00808080 = 0x00373737 /\
  TypedArray_map gammaCorrect [0x00808080] = [0x00373737] /\
  (render [0x00808080] m).1.2 = [0x00808080] /\
  (render [0x00808080] m).2 = Normal tt /\
  _outputBuffer (render [0x00808080] m).1.1 = Some [0x80; 0x80; 0x80; 0x00] /\
  last (bindings_calls (render [0x00808080] m).1.1)
  = Some (Brender (Some [0x80; 0x80; 0x80; 0x00])).
Proof.
  intros HK m. subst m.
  change (F64.of_Z 1) with (F64.of_Z (Z.of_nat 1)).
  rewrite (init_count SK6812W kMaxLength 1) by (try discriminate; lia).
  repeat split; vm_compute; reflexivity.
Qed.

Lemma render_drops_gamma_correction_witness :
  (render [0x00808080]
     (init None 0x7fffffff (F64.of_Z 1)
        (JSObject [("gammaCorrection", JSBool true)]) fresh).1).1.2
  = [0x00808080].
Proof.
  refine (proj1 (proj2 (proj2 (proj2
            (render_drops_gamma_correction None 0x7fffffff _))))).
  lia.
Defined.

(** Whatever the gamma flag, the array [render] leaves is the remapped and
    converted one. *)
Lemma render_ignores_gamma_flag (data : list Z) (m : Module) (b : bool) :
  (render data (set_useGammaCorrection b m)).1.2 = (render data m).1.2.
Proof.
  unfold render. cbn [_isInitialized set_useGammaCorrection].
  destruct (_isInitialized m); cbn [negb]; [|reflexivity].
  cbv zeta.
  change (_indexMapping (emit "beforeRender" data (set_useGammaCorrection b m)))
    with (_indexMapping (emit "beforeRender" data m)).
  change (_rgbToRgbw (emit "beforeRender" data (set_useGammaCorrection b m)))
    with (_rgbToRgbw (emit "beforeRender" data m)).
  change (_outputBuffer (emit "beforeRender" data (set_useGammaCorrection b m)))
    with (_outputBuffer (emit "beforeRender" data m)).
  destruct (encode _ _) as [buf [[]|e]]; reflexivity.
Qed.

(** C3 (the code departs from it).  [init] with [null] for the options
    throws a [TypeError]: [typeof null] is ["object"], so [null] is not
    replaced by [{}] and reading [options.gammaCorrection] fails, after
    [_isInitialized] and the frame were set and before the flags are
    assigned and the bindings are called. *)
Theorem init_null_options_throws (SK6812W : option Z) (kMaxLength : Z) :
  4 <= kMaxLength < 2 ^ 53 ->
  init SK6812W kMaxLength (F64.of_Z 1) JSNull fresh =
  ({| _isInitialized := true;
      _indexMapping := None;
      _outputBuffer := Some [0; 0; 0; 0];
      _useGammaCorrection := false;
      _rgbToRgbw := false;
      bindings_calls := [];
      emitted := [] |},
   Throw JsTypeError).
Proof.
  intros HK.
  rewrite (init_null SK6812W kMaxLength (F64.of_Z 1) fresh (Buffer_alloc 4)).
  - reflexivity.
  - apply (Buffer_new_count kMaxLength 1). lia.
Qed.

Lemma init_null_options_throws_witness :
  init None 0x7fffffff (F64.of_Z 1) JSNull fresh =
  ({| _isInitialized := true;
      _indexMapping := None;
      _outputBuffer := Some [0; 0; 0; 0];
      _useGammaCorrection := false;
      _rgbToRgbw := false;
      bindings_calls := [];
      emitted := [] |},
   Throw JsTypeError).
Proof. apply init_null_options_throws. lia. Defined.

(** Every other options argument is accepted for a count of LEDs that
    fits, with the defaults for what is absent. *)
Lemma init_permissive (SK6812W : option Z) (kMaxLength : Z) (numLeds : nat)
      (options : JSValue) (m : Module) :
  4 * Z.of_nat numLeds <= kMaxLength < 2 ^ 53 ->
  options <> JSNull ->
  exists m',
    init SK6812W kMaxLength (F64.of_Z (Z.of_nat numLeds)) options m = (m', Normal tt) /\
    _isInitialized m' = true /\
    _outputBuffer m' = Some (Buffer_alloc (4 * numLeds)) /\
    (prop_value options "gammaCorrection" = JSUndefined -> _useGammaCorrection m' = false) /\
    (prop_value options "rgbToRgbw" = JSUndefined -> _rgbToRgbw m' = false).
Proof.
  intros HK H. eexists. split; [apply init_count; [exact HK|exact H]|].
  cbn [_isInitialized _outputBuffer _useGammaCorrection _rgbToRgbw].
  unfold option_enabled. repeat split.
  - intros ->. reflexivity.
  - intros ->. reflexivity.
Qed.

(** C4. For every pixel [rgbToRgbw] visits, with [R], [G], [B] its three
    low bytes: when their maximum is 0 the pixel is left as it is;
    otherwise, with [multiplier = 255 / max], the hues [R, G, B *
    multiplier] and [w] the value of [((max hue + min hue) / 2 - 127.5) * 2
    / multiplier] in double arithmetic, truncated toward zero (this is
    [whiteness R G B]), [w] lies
    between 0 and the smallest channel and the pixel becomes the word whose
    bytes are, from the most significant, [w], [R - w], [G - w], [B - w].
    A gray pixel [R = G = B = 128] becomes white 128 with no colour left. *)
Theorem rgbToRgbw_pixel_rewrite :
  (forall (data : list Z) (i : nat) (p : Z),
      data !! i = Some p ->
      let R := byte_of 2 p in
      let G := byte_of 1 p in
      let B := byte_of 0 p in
      exists q : Z,
        rgbToRgbw data !! i = Some q /\
        (JS.max3 R G B = 0 -> q = p) /\
        (JS.max3 R G B <> 0 ->
         let w := whiteness R G B in
         0 <= w <= JS.min3 R G B /\
         q = pack w (R - w) (G - w) (B - w) /\
         byte_of 3 q = w /\ byte_of 2 q = R - w /\
         byte_of 1 q = G - w /\ byte_of 0 q = B - w)) /\
  (forall a : Z, is_byte a ->
      rgbToRgbw [pack a 128 128 128] = [pack 128 0 0 0]).
Proof.
  assert (Hpix : forall p : Z,
             let R := byte_of 2 p in
             let G := byte_of 1 p in
             let B := byte_of 0 p in
             (JS.max3 R G B = 0 -> rgbToRgbw_pixel p = p) /\
             (JS.max3 R G B <> 0 ->
              0 <= whiteness R G B <= JS.min3 R G B /\
              rgbToRgbw_pixel p =
              pack (whiteness R G B) (R - whiteness R G B)
                   (G - whiteness R G B) (B - whiteness R G B))).
  { intros p R G B. unfold rgbToRgbw_pixel. cbv zeta.
    assert (ER : JS.and (JS.sar p 16) 255 = R) by exact (and_sar_byte 2 p ltac:(lia)).
    assert (EG : JS.and (JS.sar p 8) 255 = G) by exact (and_sar_byte 1 p ltac:(lia)).
    assert (EB : JS.and p 255 = B) by exact (and_byte0 p).
    rewrite ER, EG, EB. clear ER EG EB.
    pose proof (byte_of_range 2 p) as HR. pose proof (byte_of_range 1 p) as HG.
    pose proof (byte_of_range 0 p) as HB. fold R in HR. fold G in HG. fold B in HB.
    clearbody R G B.
    split.
    - intros ->. reflexivity.
    - intros Hmax. destruct (Z.eqb_spec (JS.max3 R G B) 0) as [?|_]; [contradiction|].
      pose proof (whiteness_range R G B HR HG HB Hmax) as Hw.
      split; [exact Hw|].
      assert (Hmin : JS.min3 R G B <= R /\ JS.min3 R G B <= G /\ JS.min3 R G B <= B)
        by (unfold JS.min3; lia).
      unfold is_byte in HR, HG, HB.
      rewrite or_shl_pack by (unfold is_byte; lia).
      apply ToUint32_small, pack_range; unfold is_byte; lia. }
  split.
  - intros data i p Hi R G B.
    exists (rgbToRgbw_pixel p).
    rewrite rgbToRgbw_fmap, list_lookup_fmap, Hi.
    split; [reflexivity|].
    destruct (Hpix p) as [H0 H1]. fold R G B in H0, H1.
    split; [exact H0|].
    intros Hmax w. unfold w. clear w.
    destruct (H1 Hmax) as [Hw Hq].
    split; [exact Hw|]. split; [exact Hq|].
    rewrite Hq.
    pose proof (byte_of_range 2 p) as HR. pose proof (byte_of_range 1 p) as HG.
    pose proof (byte_of_range 0 p) as HB. fold R in HR. fold G in HG. fold B in HB.
    clearbody R G B.
    assert (Hmin : JS.min3 R G B <= R /\ JS.min3 R G B <= G /\ JS.min3 R G B <= B)
      by (unfold JS.min3; lia).
    unfold is_byte in HR, HG, HB.
    apply byte_of_pack; unfold is_byte; lia.
  - intros a Ha. rewrite rgbToRgbw_fmap. cbn [fmap list_fmap]. f_equal.
    destruct (Hpix (pack a 128 128 128)) as [_ H1].
    destruct (byte_of_pack a 128 128 128) as (_ & E2 & E1 & E0);
      try (unfold is_byte; lia); [exact Ha|].
    rewrite E2, E1, E0 in H1.
    destruct (H1 ltac:(discriminate)) as [_ ->].
    replace (whiteness 128 128 128) with 128 by (vm_compute; reflexivity).
    reflexivity.
Qed.

Lemma rgbToRgbw_pixel_rewrite_witness :
  exists q : Z,
    rgbToRgbw [0x00030201] !! 0%nat = Some q /\ byte_of 3 q = 1 /\ byte_of 2 q = 2.
Proof.
  destruct (proj1 rgbToRgbw_pixel_rewrite [0x00030201] 0%nat 0x00030201 eq_refl)
    as (q & Hq & _ & H).
  exists q. split; [exact Hq|].
  destruct (H ltac:(discriminate)) as (_ & _ & H3 & H2 & _).
  rewrite H3, H2. split; vm_compute; reflexivity.
Defined.


Section GammaReal.

Local Open Scope R_scope.

Lemma pow_lt_strict (x y : R) (n : nat) : 0 <= x < y -> x ^ S n < y ^ S n.
Proof.
  intros [Hx Hxy]. induction n as [|n IH].
  - simpl. lra.
  - change (x ^ S (S n)) with (x * x ^ S n). change (y ^ S (S n)) with (y * y ^ S n).
    apply Rmult_le_0_lt_compat; try assumption.
    apply pow_le. exact Hx.
Qed.

Lemma Rpower_20_9_pow (x : R) : 0 < x -> Rpower x (20 / 9) ^ 9 = x ^ 20.
Proof.
  intros Hx.
  rewrite <- (Rpower_pow 9) by apply exp_pos.
  rewrite Rpower_mult.
  replace (20 / 9 * INR 9) with (INR 20) by (simpl; lra).
  apply Rpower_pow. exact Hx.
Qed.

Lemma Rpower_20_9_pos (x : R) : 0 < Rpower x (20 / 9).
Proof. apply exp_pos. Qed.

Lemma ratio_pow (i p q : Z) :
  (0 < i)%Z -> (0 < q)%Z ->
  (IZR p / IZR q) ^ 9 * (IZR q ^ 9 * 255 ^ 20) = IZR (pow_bound p) /\
  (IZR i / 255) ^ 20 * (IZR q ^ 9 * 255 ^ 20) = IZR (pow_index q i) /\
  0 < IZR q ^ 9 * 255 ^ 20.
Proof.
  intros Hi Hq.
  assert (Hq' : 0 < IZR q) by (apply IZR_lt; exact Hq).
  assert (Hq9 : 0 < IZR q ^ 9) by (apply pow_lt; exact Hq').
  assert (H255 : 0 < 255 ^ 20) by (apply pow_lt; lra).
  assert (E9 : forall z : Z, IZR (z ^ 9) = IZR z ^ 9)
    by (intros z; rewrite pow_IZR; reflexivity).
  assert (E20 : forall z : Z, IZR (z ^ 20) = IZR z ^ 20)
    by (intros z; rewrite pow_IZR; reflexivity).
  unfold pow_bound, pow_index. repeat split.
  - rewrite mult_IZR, E9, E20.
    unfold Rdiv. rewrite Rpow_mult_distr, pow_inv. field; lra.
  - rewrite mult_IZR, E9, E20.
    unfold Rdiv. rewrite Rpow_mult_distr, pow_inv. field; lra.
  - apply Rmult_lt_0_compat; assumption.
Qed.

(** [p / q <= (i / 255)^(20/9)], decided on integers. *)
Lemma Rpower_20_9_lower (i p q : Z) :
  (0 < i)%Z -> (0 < q)%Z ->
  (pow_bound p <= pow_index q i)%Z ->
  IZR p / IZR q <= Rpower (IZR i / 255) (20 / 9).
Proof.
  intros Hi Hq H.
  destruct (ratio_pow i p q Hi Hq) as (Ep & Ei & Hpos).
  assert (Hx : 0 < IZR i / 255).
  { apply Rdiv_lt_0_compat; [apply IZR_lt; exact Hi|lra]. }
  pose proof (Rpower_20_9_pos (IZR i / 255)) as Hy.
  destruct (Rle_lt_dec (IZR p / IZR q) 0) as [Hneg|Hp]; [lra|].
  destruct (Rle_lt_dec (IZR p / IZR q) (Rpower (IZR i / 255) (20 / 9))) as [Hle|Hlt];
    [exact Hle|exfalso].
  pose proof (pow_lt_strict _ _ 8 (conj (Rlt_le _ _ Hy) Hlt)) as Hs.
  rewrite Rpower_20_9_pow in Hs by exact Hx.
  apply IZR_le in H. rewrite <- Ep, <- Ei in H.
  apply Rmult_le_reg_r in H; [lra|exact Hpos].
Qed.

(** [(i / 255)^(20/9) < p / q], decided on integers. *)
Lemma Rpower_20_9_upper (i p q : Z) :
  (0 < i)%Z -> (0 < q)%Z -> (0 < p)%Z ->
  (pow_index q i < pow_bound p)%Z ->
  Rpower (IZR i / 255) (20 / 9) < IZR p / IZR q.
Proof.
  intros Hi Hq Hp H.
  destruct (ratio_pow i p q Hi Hq) as (Ep & Ei & Hpos).
  assert (Hx : 0 < IZR i / 255).
  { apply Rdiv_lt_0_compat; [apply IZR_lt; exact Hi|lra]. }
  assert (Hpq : 0 < IZR p / IZR q).
  { apply Rdiv_lt_0_compat; apply IZR_lt; assumption. }
  destruct (Rle_lt_dec (IZR p / IZR q) (Rpower (IZR i / 255) (20 / 9))) as [Hle|Hlt];
    [exfalso|exact Hlt].
  pose proof (pow_incr _ _ 9 (conj (Rlt_le _ _ Hpq) Hle)) as Hs.
  rewrite Rpower_20_9_pow in Hs by exact Hx.
  apply IZR_lt in H. rewrite <- Ep, <- Ei in H.
  apply Rmult_lt_reg_r in H; [lra|exact Hpos].
Qed.

Lemma Math_floor_between (r : R) (k : Z) : IZR k <= r < IZR k + 1 -> Math_floor r = k.
Proof.
  intros [H1 H2]. unfold Math_floor, Int_part.
  rewrite <- (tech_up r (k + 1)); [lia| |]; rewrite plus_IZR; lra.
Qed.

Lemma gamma_exponent : 1 / (45 / 100) = 20 / 9.
Proof. field. Qed.

End GammaReal.

Lemma gamma_entries_checked :
  forallb (fun i => entry_check (gamma_at (Z.of_nat i)) (Z.of_nat i)) (seq 0 256) = true.
Proof. vm_cast_no_check (eq_refl true). Qed.

Lemma gamma_margins_checked :
  forallb (fun i => margin_check (gamma_at (Z.of_nat i)) (Z.of_nat i)) (seq 1 255) = true.
Proof. vm_cast_no_check (eq_refl true). Qed.

Lemma gamma_sorted_checked :
  forallb (fun i => gamma_at (Z.of_nat i) <=? gamma_at (Z.of_nat (S i))) (seq 0 255) = true.
Proof. vm_cast_no_check (eq_refl true). Qed.

Lemma gamma_bytes_checked :
  forallb (fun i => (0 <=? gamma_at (Z.of_nat i)) && (gamma_at (Z.of_nat i) <? 256))
          (seq 0 256) = true.
Proof. vm_cast_no_check (eq_refl true). Qed.

Lemma gamma_at_range (j : Z) : is_byte (gamma_at j).
Proof.
  destruct (Z_lt_le_dec j 256) as [Hlt|Hge].
  - destruct (Z_lt_le_dec j 0) as [Hneg|Hpos].
    + destruct j; try lia. vm_compute. split; [discriminate|reflexivity].
    + pose proof gamma_bytes_checked as H. rewrite forallb_forall in H.
      specialize (H (Z.to_nat j) ltac:(apply in_seq; lia)). cbv beta in H.
      rewrite Z2Nat.id in H by lia.
      apply andb_prop in H as [H1 H2]. unfold is_byte. lia.
  - unfold gamma_at. rewrite nth_overflow; [unfold is_byte; lia|].
    change (length _gammaTable) with 256%nat. lia.
Qed.

Lemma entry_check_spec (k n : Z) :
  entry_check k n = true ->
  pow_bound (2 * k - 1) <= gamma_rhs n /\ gamma_rhs n < pow_bound (2 * k + 1).
Proof.
  unfold entry_check. intros H. apply andb_prop in H as [H1 H2].
  apply Z.leb_le in H1. apply Z.ltb_lt in H2. split; assumption.
Qed.

Lemma margin_check_spec (k n : Z) :
  margin_check k n = true ->
  pow_bound (1000 * (2 * k - 1) + 2) <= pow_index 510000 n /\
  pow_index 510000 n < pow_bound (1000 * (2 * k + 1) - 2).
Proof.
  unfold margin_check. intros H. apply andb_prop in H as [H1 H2].
  apply Z.leb_le in H1. apply Z.ltb_lt in H2. split; assumption.
Qed.

Lemma gamma_rhs_eq (i : Z) : gamma_rhs i = pow_index 510 i.
Proof. unfold gamma_rhs, pow_index. reflexivity. Qed.

Lemma gamma_formula_zero : gamma_formula 0 = (5 / 10)%R.
Proof.
  unfold gamma_formula, Math_pow.
  destruct (Req_dec_T (0 / 255) 0) as [_|Hnz]; [lra|].
  exfalso. apply Hnz. lra.
Qed.

Lemma gamma_formula_pos (i : Z) :
  0 < i ->
  gamma_formula i = (Rpower (IZR i / 255) (20 / 9) * 255 + 5 / 10)%R.
Proof.
  intros Hi. unfold gamma_formula, Math_pow. rewrite gamma_exponent.
  destruct (Req_dec_T (IZR i / 255) 0) as [Hz|_]; [|reflexivity].
  exfalso. apply IZR_lt in Hi. unfold Rdiv in Hz.
  apply Rmult_integral in Hz as [Hz|Hz]; lra.
Qed.

Lemma gamma_formula_bracket (i : Z) :
  0 <= i <= 255 ->
  (IZR (gamma_at i) <= gamma_formula i < IZR (gamma_at i) + 1)%R.
Proof.
  intros Hi. destruct (Z.eq_dec i 0) as [->|Hnz].
  - rewrite gamma_formula_zero.
    replace (gamma_at 0) with 0 by (vm_compute; reflexivity). lra.
  - assert (Hpos : 0 < i) by lia.
    rewrite gamma_formula_pos by exact Hpos.
    pose proof gamma_entries_checked as H. rewrite forallb_forall in H.
    specialize (H (Z.to_nat i) ltac:(apply in_seq; lia)). cbv beta in H.
    rewrite Z2Nat.id in H by lia.
    apply entry_check_spec in H as [H1 H2].
    rewrite gamma_rhs_eq in H1, H2.
    pose proof (gamma_at_range i) as Hk. unfold is_byte in Hk.
    pose proof (Rpower_20_9_lower i _ 510 Hpos ltac:(lia) H1) as Hl.
    pose proof (Rpower_20_9_upper i (2 * gamma_at i + 1) 510 Hpos
                  ltac:(lia) ltac:(lia) H2) as Hu.
    generalize dependent (Rpower (IZR i / 255) (20 / 9)). intros y Hl Hu.
    generalize dependent (gamma_at i). intros k _ _ _ Hl Hu.
    rewrite minus_IZR, mult_IZR in Hl. rewrite plus_IZR, mult_IZR in Hu.
    unfold Rdiv in Hl, Hu. split; lra.
Qed.

(** X3. For every index the value [pow(i / 255, 1 / 0.45) * 255 + 0.5]
    lies at least a thousandth above the table entry and a thousandth
    below the next integer: the floor that defines the entry does not
    depend on the last digits of the power. *)
Theorem gamma_formula_margin (i : Z) :
  0 <= i <= 255 ->
  (IZR (gamma_at i) + 1 / 1000 <= gamma_formula i <= IZR (gamma_at i) + 1 - 1 / 1000)%R.
Proof.
  intros Hi. destruct (Z.eq_dec i 0) as [->|Hnz].
  - rewrite gamma_formula_zero.
    replace (gamma_at 0) with 0 by (vm_compute; reflexivity). lra.
  - assert (Hpos : 0 < i) by lia.
    rewrite gamma_formula_pos by exact Hpos.
    pose proof gamma_margins_checked as H. rewrite forallb_forall in H.
    specialize (H (Z.to_nat i) ltac:(apply in_seq; lia)). cbv beta in H.
    rewrite Z2Nat.id in H by lia.
    apply margin_check_spec in H as [H1 H2].
    pose proof (gamma_at_range i) as Hk. unfold is_byte in Hk.
    pose proof (Rpower_20_9_lower i _ 510000 Hpos ltac:(lia) H1) as Hl.
    pose proof (Rpower_20_9_upper i (1000 * (2 * gamma_at i + 1) - 2) 510000 Hpos
                  ltac:(lia) ltac:(lia) H2) as Hu.
    generalize dependent (Rpower (IZR i / 255) (20 / 9)). intros y Hl Hu.
    generalize dependent (gamma_at i). intros k _ _ _ Hl Hu.
    rewrite plus_IZR, !mult_IZR, minus_IZR, mult_IZR in Hl.
    rewrite minus_IZR, !mult_IZR, plus_IZR, mult_IZR in Hu.
    unfold Rdiv in Hl, Hu. split; lra.
Qed.

Lemma gamma_at_step (i : nat) : (i < 255)%nat -> gamma_at (Z.of_nat i) <= gamma_at (Z.of_nat (S i)).
Proof.
  intros Hi.
  pose proof gamma_sorted_checked as H. rewrite forallb_forall in H.
  specialize (H i ltac:(apply in_seq; lia)). cbv beta in H.
  apply Z.leb_le. exact H.
Qed.

Lemma gamma_at_monotone (i j : Z) :
  0 <= i -> i <= j -> j <= 255 -> gamma_at i <= gamma_at j.
Proof.
  intros Hi Hij Hj.
  assert (H : forall d n : nat, (n + d <= 255)%nat ->
                gamma_at (Z.of_nat n) <= gamma_at (Z.of_nat (n + d))).
  { intros d. induction d as [|d IH]; intros n Hn.
    - rewrite Nat.add_0_r. lia.
    - replace (n + S d)%nat with (S (n + d)) by lia.
      etransitivity; [apply IH; lia|apply gamma_at_step; lia]. }
  specialize (H (Z.to_nat (j - i)) (Z.to_nat i) ltac:(lia)).
  replace (Z.of_nat (Z.to_nat i + Z.to_nat (j - i))) with j in H by lia.
  rewrite Z2Nat.id in H by lia. exact H.
Qed.

(** *** The table is the one the loop builds *)

Lemma odd9_mono (a b : Z) : 0 <= a -> a <= b -> odd9 (a + 1) <= odd9 b \/ b <= a.
Proof.
  intros Ha Hab. destruct (Z.eq_dec a b) as [->|Hne]; [right; lia|left].
  unfold odd9. apply Z.pow_le_mono_l. lia.
Qed.

Lemma gamma_floor_from_reaches (fuel : nat) :
  forall scale rhs k g : Z,
    0 <= scale -> 0 <= k <= g -> g <= k + Z.of_nat fuel ->
    (k < g -> odd9 g * scale <= rhs) ->
    rhs < odd9 (g + 1) * scale ->
    gamma_floor_from fuel scale rhs k = g.
Proof.
  induction fuel as [|fuel IH]; intros scale rhs k g Hs Hk Hg Hlow Hup; cbn [gamma_floor_from].
  - lia.
  - change ((2 * (k + 1) - 1) ^ 9) with (odd9 (k + 1)).
    destruct (Z.leb_spec (odd9 (k + 1) * scale) rhs) as [Hle|Hgt].
    + destruct (Z.eq_dec k g) as [->|Hne]; [lia|].
      apply IH; try lia; intros _; apply Hlow; lia.
    + destruct (Z.eq_dec k g) as [->|Hne]; [reflexivity|exfalso].
      destruct (odd9_mono k g ltac:(lia) ltac:(lia)) as [Hpow|Hge]; [|lia].
      pose proof (Z.mul_le_mono_nonneg_r _ _ scale Hs Hpow).
      specialize (Hlow ltac:(lia)). lia.
Qed.

Lemma gamma_floor_from_bracket (rhs g : Z) :
  0 <= g <= 256 ->
  pow_bound (2 * g - 1) <= rhs -> rhs < pow_bound (2 * g + 1) ->
  gamma_floor_from 256 (255 ^ 20) rhs 0 = g.
Proof.
  intros Hg H1 H2. apply gamma_floor_from_reaches.
  - apply Z.pow_nonneg. lia.
  - lia.
  - change (Z.of_nat 256) with 256. lia.
  - intros _. exact H1.
  - replace (g + 1) with (g + 1) by reflexivity.
    unfold odd9. replace (2 * (g + 1) - 1) with (2 * g + 1) by lia. exact H2.
Qed.

Lemma gamma_value_at (i : Z) : 0 <= i <= 255 -> gamma_value i = gamma_at i.
Proof.
  intros Hi.
  pose proof gamma_entries_checked as H. rewrite forallb_forall in H.
  specialize (H (Z.to_nat i) ltac:(apply in_seq; lia)). cbv beta in H.
  rewrite Z2Nat.id in H by lia.
  apply entry_check_spec in H as [H1 H2].
  pose proof (gamma_at_range i) as Hk. unfold is_byte in Hk.
  apply gamma_floor_from_bracket; [lia|exact H1|exact H2].
Qed.

Lemma gamma_fill_length (n : nat) :
  forall (i : nat) (tbl : list Z), length (gamma_fill n i tbl) = length tbl.
Proof.
  induction n as [|n IH]; intros i tbl; cbn [gamma_fill]; [reflexivity|].
  rewrite IH. apply length_insert.
Qed.

Lemma gamma_fill_lookup (n : nat) :
  forall (i : nat) (tbl : list Z) (j : nat),
    gamma_fill n i tbl !! j =
    if decide (i <= j < i + n /\ j < length tbl)%nat
    then Some (JS.ToUint8 (gamma_value (Z.of_nat j)))
    else tbl !! j.
Proof.
  induction n as [|n IH]; intros i tbl j; cbn [gamma_fill].
  - case_decide; [lia|reflexivity].
  - rewrite IH, length_insert.
    destruct (decide (j = i)) as [->|Hne].
    + destruct (decide (i < length tbl)%nat) as [Hlt|Hge].
      * rewrite list_lookup_insert_eq by exact Hlt. repeat case_decide; try lia; reflexivity.
      * rewrite list_insert_ge by lia. repeat case_decide; try lia; reflexivity.
    + rewrite list_lookup_insert_ne by congruence. repeat case_decide; try lia; reflexivity.
Qed.

Lemma gammaTable_lookup (i : Z) :
  0 <= i <= 255 -> _gammaTable !! Z.to_nat i = Some (gamma_at i).
Proof.
  intros Hi. unfold gamma_at.
  destruct (lookup_lt_is_Some_2 _gammaTable (Z.to_nat i)) as [x Hx].
  { change (length _gammaTable) with 256%nat. lia. }
  rewrite Hx. f_equal. symmetry. exact (nth_lookup_Some _ _ 0 _ Hx).
Qed.

Lemma gammaTable_is_built : _gammaTable = gammaTable_built.
Proof.
  apply list_eq. intros j. unfold gammaTable_built.
  rewrite gamma_fill_lookup, length_replicate.
  case_decide as Hj.
  - pose proof (gammaTable_lookup (Z.of_nat j) ltac:(lia)) as H.
    rewrite Nat2Z.id in H. rewrite H. f_equal.
    rewrite gamma_value_at by lia.
    unfold JS.ToUint8. symmetry. apply Z.mod_small. apply gamma_at_range.
  - rewrite (proj1 (lookup_replicate_None 256 0 j)) by lia.
    apply lookup_ge_None_2. change (length _gammaTable) with 256%nat. lia.
Qed.

(** C9. The table built by the loop has 256 entries; entry [i] is the
    floor of [pow(i / 255, 1 / 0.45) * 255 + 0.5] (with [pow] the power
    function on real numbers); the entries do not decrease with the index;
    entry 0 is 0 and entry 255 is 255. *)
Theorem gammaTable_spec :
  _gammaTable = gammaTable_built /\
  length _gammaTable = 256%nat /\
  (forall i : Z, 0 <= i <= 255 ->
     _gammaTable !! Z.to_nat i = Some (gamma_at i) /\
     gamma_at i = Math_floor (gamma_formula i)) /\
  (forall i j : Z, 0 <= i -> i <= j -> j <= 255 -> gamma_at i <= gamma_at j) /\
  gamma_at 0 = 0 /\ gamma_at 255 = 255.
Proof.
  split; [exact gammaTable_is_built|].
  split; [reflexivity|]. split; [|split; [exact gamma_at_monotone|split; reflexivity]].
  intros i Hi. split; [apply gammaTable_lookup; exact Hi|].
  symmetry. apply Math_floor_between. apply gamma_formula_bracket. exact Hi.
Qed.

Lemma gammaTable_spec_witness :
  _gammaTable !! Z.to_nat 128 = Some (gamma_at 128) /\
  gamma_at 128 = Math_floor (gamma_formula 128).
Proof.
  apply (proj1 (proj2 (proj2 gammaTable_spec)) 128). lia.
Defined.



(** ** Further properties of the gamma correction *)

Lemma gammaCorrect_pack (color : Z) :
  gammaCorrect color =
    pack (gamma_at (byte_of 3 color)) (gamma_at (byte_of 2 color))
         (gamma_at (byte_of 1 color)) (gamma_at (byte_of 0 color)).
Proof.
  unfold gammaCorrect.
  assert (E3 : JS.and (JS.sar color 24) 255 = byte_of 3 color)
    by exact (and_sar_byte 3 color ltac:(lia)).
  assert (E2 : JS.and (JS.sar color 16) 255 = byte_of 2 color)
    by exact (and_sar_byte 2 color ltac:(lia)).
  assert (E1 : JS.and (JS.sar color 8) 255 = byte_of 1 color)
    by exact (and_sar_byte 1 color ltac:(lia)).
  rewrite E3, E2, E1, and_byte0.
  apply or_shl_pack_rev; apply gamma_at_range.
Qed.

(** X1. [gammaCorrect] sends every number to the word whose four bytes are
    the table entries of the four low bytes of the number, in the same
    positions; the result is an unsigned 32-bit word. *)
Theorem gammaCorrect_bytes (color : Z) :
  is_uint32 (gammaCorrect color) /\
  byte_of 3 (gammaCorrect color) = gamma_at (byte_of 3 color) /\
  byte_of 2 (gammaCorrect color) = gamma_at (byte_of 2 color) /\
  byte_of 1 (gammaCorrect color) = gamma_at (byte_of 1 color) /\
  byte_of 0 (gammaCorrect color) = gamma_at (byte_of 0 color).
Proof.
  rewrite gammaCorrect_pack.
  split; [apply pack_range; apply gamma_at_range|].
  apply byte_of_pack; apply gamma_at_range.
Qed.

Lemma gamma_below_checked :
  forallb (fun i => gamma_at (Z.of_nat i) <=? Z.of_nat i) (seq 0 256) = true.
Proof. vm_cast_no_check (eq_refl true). Qed.

(** X2. The table never raises a value: every entry is at most its index,
    so no channel of a gamma-corrected pixel exceeds the channel it comes
    from, and the corrected word is at most the original word. *)
Theorem gammaCorrect_never_brightens (color : Z) :
  is_uint32 color ->
  (forall k : Z, 0 <= k <= 3 -> byte_of k (gammaCorrect color) <= byte_of k color) /\
  gammaCorrect color <= color.
Proof.
  intros Hc.
  assert (Hb : forall b : Z, is_byte b -> gamma_at b <= b).
  { intros b Hb. unfold is_byte in Hb.
    pose proof gamma_below_checked as H. rewrite forallb_forall in H.
    specialize (H (Z.to_nat b) ltac:(apply in_seq; lia)). cbv beta in H.
    rewrite Z2Nat.id in H by lia. apply Z.leb_le. exact H. }
  pose proof (gammaCorrect_pack color) as E.
  destruct (byte_of_pack (gamma_at (byte_of 3 color)) (gamma_at (byte_of 2 color))
              (gamma_at (byte_of 1 color)) (gamma_at (byte_of 0 color)))
    as (E3 & E2 & E1 & E0); try apply gamma_at_range.
  rewrite <- E in E3, E2, E1, E0.
  split.
  - intros k Hk.
    assert (Hk4 : k = 0 \/ k = 1 \/ k = 2 \/ k = 3) by lia.
    destruct Hk4 as [Hk0|[Hk1|[Hk2|Hk3]]]; subst k;
      rewrite ?E0, ?E1, ?E2, ?E3; apply Hb, byte_of_range.
  - rewrite E.
    pose proof (Hb _ (byte_of_range 3 color)) as H3.
    pose proof (Hb _ (byte_of_range 2 color)) as H2.
    pose proof (Hb _ (byte_of_range 1 color)) as H1.
    pose proof (Hb _ (byte_of_range 0 color)) as H0.
    rewrite (word_of_bytes color Hc) at 5.
    unfold pack. lia.
Qed.

Lemma gammaCorrect_never_brightens_witness :
  gammaCorrect 0x00ff8040 <= 0x00ff8040.
Proof.
  apply (gammaCorrect_never_brightens 0x00ff8040). unfold is_uint32. lia.
Defined.

Lemma gamma_formula_margin_witness :
  (IZR (gamma_at 128) + 1 / 1000 <= gamma_formula 128 <= IZR (gamma_at 128) + 1 - 1 / 1000)%R.
Proof. apply (gamma_formula_margin 128). lia. Defined.

(** ** Further properties of the RGB to RGBW conversion *)

(** The three colour bytes and the result of the conversion of a pixel. *)
Lemma rgbToRgbw_pixel_cases (p : Z) :
  let R := byte_of 2 p in
  let G := byte_of 1 p in
  let B := byte_of 0 p in
  (JS.max3 R G B = 0 -> rgbToRgbw_pixel p = p) /\
  (JS.max3 R G B <> 0 ->
   rgbToRgbw_pixel p =
   pack (whiteness R G B) (R - whiteness R G B) (G - whiteness R G B) (B - whiteness R G B)).
Proof.
  intros R G B. unfold rgbToRgbw_pixel. cbv zeta.
  assert (ER : JS.and (JS.sar p 16) 255 = R) by exact (and_sar_byte 2 p ltac:(lia)).
  assert (EG : JS.and (JS.sar p 8) 255 = G) by exact (and_sar_byte 1 p ltac:(lia)).
  assert (EB : JS.and p 255 = B) by exact (and_byte0 p).
  rewrite ER, EG, EB. clear ER EG EB.
  pose proof (byte_of_range 2 p) as HR. pose proof (byte_of_range 1 p) as HG.
  pose proof (byte_of_range 0 p) as HB. fold R in HR. fold G in HG. fold B in HB.
  clearbody R G B.
  split.
  - intros ->. reflexivity.
  - intros Hmax. destruct (Z.eqb_spec (JS.max3 R G B) 0) as [?|_]; [contradiction|].
    pose proof (whiteness_range R G B HR HG HB Hmax) as Hw.
    assert (Hmin : JS.min3 R G B <= R /\ JS.min3 R G B <= G /\ JS.min3 R G B <= B)
      by (unfold JS.min3; lia).
    unfold is_byte in HR, HG, HB.
    rewrite or_shl_pack by (unfold is_byte; lia).
    apply ToUint32_small, pack_range; unfold is_byte; lia.
Qed.

Lemma rgbToRgbw_pixel_white (p : Z) :
  JS.max3 (byte_of 2 p) (byte_of 1 p) (byte_of 0 p) <> 0 ->
  let q := rgbToRgbw_pixel p in
  let lo := JS.min3 (byte_of 2 p) (byte_of 1 p) (byte_of 0 p) in
  (byte_of 3 q = lo \/ byte_of 3 q = lo - 1) /\
  0 <= byte_of 3 q /\
  byte_of 2 q = byte_of 2 p - byte_of 3 q /\
  byte_of 1 q = byte_of 1 p - byte_of 3 q /\
  byte_of 0 q = byte_of 0 p - byte_of 3 q /\
  0 <= JS.min3 (byte_of 2 q) (byte_of 1 q) (byte_of 0 q) <= 1.
Proof.
  intros Hmax q lo.
  destruct (rgbToRgbw_pixel_cases p) as [_ Hq]. specialize (Hq Hmax).
  pose proof (byte_of_range 2 p) as HR. pose proof (byte_of_range 1 p) as HG.
  pose proof (byte_of_range 0 p) as HB.
  pose proof (whiteness_near_min _ _ _ HR HG HB Hmax) as [Hw0 Hw].
  fold lo in Hw. unfold q. rewrite Hq.
  generalize dependent (whiteness (byte_of 2 p) (byte_of 1 p) (byte_of 0 p)).
  intros w _ Hw0 Hw.
  assert (Hlo : lo <= byte_of 2 p /\ lo <= byte_of 1 p /\ lo <= byte_of 0 p /\
                (lo = byte_of 2 p \/ lo = byte_of 1 p \/ lo = byte_of 0 p))
    by (unfold lo, JS.min3; lia).
  unfold is_byte in HR, HG, HB.
  destruct (byte_of_pack w (byte_of 2 p - w) (byte_of 1 p - w) (byte_of 0 p - w))
    as (E3 & E2 & E1 & E0); try (unfold is_byte; lia).
  rewrite E3, E2, E1, E0. unfold JS.min3. lia.
Qed.

(** X4. For a pixel that is not black, the white byte written by
    [rgbToRgbw] is the smallest of the three colour bytes or one less (the
    double arithmetic may fall just short of the integer); every colour
    byte that remains is the old one minus the white byte, and the
    smallest that remains is 0 or 1. *)
Theorem rgbToRgbw_white_is_min (data : list Z) (i : nat) (p : Z) :
  data !! i = Some p ->
  JS.max3 (byte_of 2 p) (byte_of 1 p) (byte_of 0 p) <> 0 ->
  exists q : Z,
    rgbToRgbw data !! i = Some q /\
    (byte_of 3 q = JS.min3 (byte_of 2 p) (byte_of 1 p) (byte_of 0 p) \/
     byte_of 3 q = JS.min3 (byte_of 2 p) (byte_of 1 p) (byte_of 0 p) - 1) /\
    0 <= byte_of 3 q /\
    byte_of 2 q = byte_of 2 p - byte_of 3 q /\
    byte_of 1 q = byte_of 1 p - byte_of 3 q /\
    byte_of 0 q = byte_of 0 p - byte_of 3 q /\
    0 <= JS.min3 (byte_of 2 q) (byte_of 1 q) (byte_of 0 q) <= 1.
Proof.
  intros Hi Hmax. exists (rgbToRgbw_pixel p).
  split; [rewrite rgbToRgbw_fmap, list_lookup_fmap, Hi; reflexivity|].
  exact (rgbToRgbw_pixel_white p Hmax).
Qed.

Lemma rgbToRgbw_white_is_min_witness :
  exists q : Z,
    rgbToRgbw [0x00191919] !! 0%nat = Some q /\ (byte_of 3 q = 25 \/ byte_of 3 q = 25 - 1).
Proof.
  destruct (rgbToRgbw_white_is_min [0x00191919] 0 0x00191919 eq_refl ltac:(discriminate))
    as (q & Hq & Hw & _).
  exists q. split; [exact Hq|exact Hw].
Defined.

(** A gray pixel that keeps a residue: [R = G = B = 25] becomes white 24
    with 1 left on every colour channel. *)
Example rgbToRgbw_gray_25 : rgbToRgbw_pixel 0x00191919 = 0x18010101.
Proof. vm_compute. reflexivity. Qed.

(** X5. The byte above the three colour bytes of the incoming pixel plays
    no part in the conversion of a pixel that is not black: two pixels with
    the same colour bytes are converted to the same word.  A black pixel
    keeps that byte. *)
Theorem rgbToRgbw_ignores_incoming_white (p p' : Z) :
  byte_of 2 p = byte_of 2 p' -> byte_of 1 p = byte_of 1 p' -> byte_of 0 p = byte_of 0 p' ->
  (JS.max3 (byte_of 2 p) (byte_of 1 p) (byte_of 0 p) <> 0 ->
   rgbToRgbw_pixel p = rgbToRgbw_pixel p') /\
  (JS.max3 (byte_of 2 p) (byte_of 1 p) (byte_of 0 p) = 0 ->
   rgbToRgbw_pixel p = p /\ rgbToRgbw_pixel p' = p').
Proof.
  intros E2 E1 E0.
  destruct (rgbToRgbw_pixel_cases p) as [Hz Hnz].
  destruct (rgbToRgbw_pixel_cases p') as [Hz' Hnz'].
  rewrite <- E2, <- E1, <- E0 in Hz', Hnz'.
  split.
  - intros Hmax. rewrite (Hnz Hmax), (Hnz' Hmax). reflexivity.
  - intros Hmax. split; [exact (Hz Hmax)|exact (Hz' Hmax)].
Qed.

Lemma rgbToRgbw_ignores_incoming_white_witness :
  rgbToRgbw_pixel 0xff030201 = rgbToRgbw_pixel 0x00030201.
Proof.
  refine (proj1 (rgbToRgbw_ignores_incoming_white 0xff030201 0x00030201 _ _ _) _).
  - reflexivity.
  - reflexivity.
  - reflexivity.
  - discriminate.
Defined.

(** X6. Converting a converted pixel again does not give it back: when
    colour is left after the first conversion, the second one replaces the
    white byte by a value of at most 1.  (An array rendered twice is
    converted twice, since [render] changes it in place.) *)
Theorem rgbToRgbw_twice_loses_white (p : Z) :
  let q := rgbToRgbw_pixel p in
  JS.max3 (byte_of 2 p) (byte_of 1 p) (byte_of 0 p) <> 0 ->
  JS.max3 (byte_of 2 q) (byte_of 1 q) (byte_of 0 q) <> 0 ->
  0 <= byte_of 3 (rgbToRgbw_pixel q) <= 1.
Proof.
  intros q Hmax Hmax'.
  destruct (rgbToRgbw_pixel_white p Hmax) as (_ & _ & _ & _ & _ & Hres).
  fold q in Hres.
  destruct (rgbToRgbw_pixel_white q Hmax') as (Hw & Hw0 & _).
  cbv zeta in Hw. lia.
Qed.

Lemma rgbToRgbw_twice_loses_white_witness :
  0 <= byte_of 3 (rgbToRgbw_pixel (rgbToRgbw_pixel 0x00804020)) <= 1.
Proof.
  apply (rgbToRgbw_twice_loses_white 0x00804020); vm_compute; discriminate.
Defined.

(** ** Further properties of the index remapping *)

(** X7. [remap] never fails and never resizes the array: a position whose
    mapping entry is missing (the mapping is shorter than the array), is
    negative or points past the end of the array receives 0. *)
Theorem remap_out_of_range_zero (data mapping : list Z) (i : nat) :
  (i < length data)%nat ->
  match mapping !! i with
  | None => True
  | Some j => j < 0 \/ Z.of_nat (length data) <= j
  end ->
  length (remap data mapping) = length data /\
  remap data mapping !! i = Some 0.
Proof.
  intros Hi Hj. split; [apply remap_length|].
  rewrite remap_lookup. case_decide; [|lia].
  unfold remap_value. destruct (mapping !! i) as [j|]; [|reflexivity].
  unfold typed_read. destruct (Z.ltb_spec j 0) as [_|Hpos]; [reflexivity|].
  rewrite lookup_ge_None_2 by lia. reflexivity.
Qed.

Lemma remap_out_of_range_zero_witness :
  length (remap [10; 20; 30] [2; 7]) = 3%nat /\ remap [10; 20; 30] [2; 7] !! 1%nat = Some 0.
Proof.
  apply (remap_out_of_range_zero [10; 20; 30] [2; 7] 1).
  - simpl. lia.
  - simpl. lia.
Defined.

(** With a mapping of the array's length whose entries are valid indices,
    [remap] is a [map] over the mapping. *)
Lemma remap_fmap (data mapping : list Z) :
  Forall is_uint32 data ->
  length mapping = length data ->
  Forall (fun j => 0 <= j < Z.of_nat (length data)) mapping ->
  remap data mapping = (fun j => nth (Z.to_nat j) data 0) <$> mapping.
Proof.
  intros Hwf Hlen Hrange. apply list_eq. intros i.
  rewrite list_lookup_fmap, remap_lookup. case_decide as Hi.
  - destruct (lookup_lt_is_Some_2 mapping i ltac:(lia)) as [j Hj].
    unfold remap_value. rewrite Hj. cbn [fmap option_fmap option_map]. f_equal.
    pose proof (Forall_lookup_1 _ _ _ _ Hrange Hj) as Hjr. cbv beta in Hjr.
    unfold typed_read. destruct (Z.ltb_spec j 0) as [?|_]; [lia|].
    destruct (lookup_lt_is_Some_2 data (Z.to_nat j) ltac:(lia)) as [v Hv].
    rewrite Hv, (nth_lookup_Some _ _ 0 _ Hv). cbn [typed_store_value].
    apply ToUint32_small. exact (Forall_lookup_1 _ _ _ _ Hwf Hv).
  - rewrite lookup_ge_None_2 by lia. reflexivity.
Qed.

(** X8. When the mapping is a rearrangement of the indices [0 .. n - 1] of
    the array, the remapped array is a rearrangement of the array: no
    pixel is lost or repeated. *)
Theorem remap_permutation (data mapping : list Z) :
  Forall is_uint32 data ->
  mapping ≡ₚ Z.of_nat <$> seq 0 (length data) ->
  remap data mapping ≡ₚ data.
Proof.
  intros Hwf Hperm.
  assert (Hlen : length mapping = length data).
  { rewrite Hperm, length_fmap, length_seq. reflexivity. }
  assert (Hrange : Forall (fun j => 0 <= j < Z.of_nat (length data)) mapping).
  { rewrite Hperm. apply Forall_fmap, Forall_seq. intros j Hj. cbn. lia. }
  rewrite (remap_fmap data mapping Hwf Hlen Hrange), Hperm.
  rewrite <- list_fmap_compose.
  replace ((fun j => nth (Z.to_nat j) data 0) ∘ Z.of_nat <$> seq 0 (length data)) with data;
    [reflexivity|].
  apply list_eq. intros i. rewrite list_lookup_fmap.
  destruct (decide (i < length data)%nat) as [Hi|Hi].
  - rewrite lookup_seq_lt by exact Hi. cbn. rewrite Nat2Z.id.
    destruct (lookup_lt_is_Some_2 data i Hi) as [v Hv].
    rewrite Hv, (nth_lookup_Some _ _ 0 _ Hv). reflexivity.
  - rewrite lookup_seq_ge by lia. apply lookup_ge_None_2. lia.
Qed.

Lemma remap_permutation_witness : remap [10; 20; 30] [1; 2; 0] ≡ₚ [10; 20; 30].
Proof.
  apply (remap_permutation [10; 20; 30] [1; 2; 0]).
  - repeat constructor; unfold is_uint32; lia.
  - cbn. symmetry. exact (Permutation_cons_append [1; 2] 0).
Defined.

(** X9. Two remappings in a row are one remapping by the composed mapping
    [i |-> m1[m2[i]]]. *)
Theorem remap_compose (data m1 m2 : list Z) :
  Forall is_uint32 data ->
  length m1 = length data -> length m2 = length data ->
  Forall (fun j => 0 <= j < Z.of_nat (length data)) m1 ->
  Forall (fun j => 0 <= j < Z.of_nat (length data)) m2 ->
  remap (remap data m1) m2 =
  remap data ((fun j => nth (Z.to_nat j) m1 0) <$> m2).
Proof.
  intros Hwf Hl1 Hl2 Hr1 Hr2.
  assert (Hr12 : Forall (fun j => 0 <= j < Z.of_nat (length data))
                        ((fun j => nth (Z.to_nat j) m1 0) <$> m2)).
  { apply Forall_fmap. eapply Forall_impl; [exact Hr2|]. intros j Hj. cbn in *.
    destruct (lookup_lt_is_Some_2 m1 (Z.to_nat j) ltac:(lia)) as [k Hk].
    rewrite (nth_lookup_Some _ _ 0 _ Hk).
    exact (Forall_lookup_1 _ _ _ _ Hr1 Hk). }
  rewrite (remap_fmap (remap data m1) m2 (remap_uint32 _ _))
    by (rewrite remap_length; assumption).
  rewrite (remap_fmap data ((fun j => nth (Z.to_nat j) m1 0) <$> m2) Hwf)
    by (rewrite ?length_fmap; assumption).
  rewrite <- list_fmap_compose.
  apply list_eq. intros i. rewrite !list_lookup_fmap.
  destruct (m2 !! i) as [j|] eqn:Hj; [|reflexivity].
  cbn. f_equal.
  pose proof (Forall_lookup_1 _ _ _ _ Hr2 Hj) as Hjr. cbv beta in Hjr.
  destruct (lookup_lt_is_Some_2 m1 (Z.to_nat j) ltac:(lia)) as [k Hk].
  rewrite (nth_lookup_Some _ _ 0 _ Hk).
  rewrite (remap_fmap data m1 Hwf Hl1 Hr1).
  apply nth_lookup_Some. rewrite list_lookup_fmap, Hk. reflexivity.
Qed.

Lemma remap_compose_witness :
  remap (remap [10; 20; 30] [1; 2; 0]) [2; 2; 1] =
  remap [10; 20; 30] ((fun j => nth (Z.to_nat j) [1; 2; 0] 0) <$> [2; 2; 1]).
Proof.
  apply (remap_compose [10; 20; 30] [1; 2; 0] [2; 2; 1]).
  - repeat constructor; unfold is_uint32; lia.
  - reflexivity.
  - reflexivity.
  - repeat constructor; simpl; lia.
  - repeat constructor; simpl; lia.
Defined.

(** ** Further properties of [render] and of the framing *)

Lemma encode_loop_overflow (n : nat) :
  forall (i : nat) (data b : list Z),
    Forall is_uint32 data -> (i + n <= length data)%nat -> (0 < n)%nat ->
    (length b < 4 * (i + n))%nat ->
    exists b',
      encode_loop n i data (Some b) = (Some b', Throw JsRangeError) /\
      length b' = length b.
Proof.
  induction n as [|n IH]; intros i data b Hwf Hi Hn Hb; [lia|]. cbn [encode_loop].
  destruct (lookup_lt_is_Some_2 data i ltac:(lia)) as [v Hv]. rewrite Hv.
  pose proof (Forall_lookup_1 _ _ _ _ Hwf Hv) as Hrange.
  destruct (decide (4 * i + 4 <= length b)%nat) as [Hfit|Hover].
  - destruct (writeUInt32LE_ok b v (4 * i) Hrange Hfit) as (b1 & -> & Hl1 & _).
    destruct (IH (S i) data b1 Hwf ltac:(lia) ltac:(lia) ltac:(lia)) as (b' & -> & Hl').
    exists b'. split; [reflexivity|lia].
  - exists b. split; [|reflexivity]. unfold writeUInt32LE.
    assert (negb ((0 <=? v) && (v <? 2 ^ 32)) = false) as ->.
    { unfold is_uint32 in Hrange. apply negb_false_iff, andb_true_intro.
      split; [apply Z.leb_le|apply Z.ltb_lt]; lia. }
    assert (negb (4 * i + 4 <=? length b)%nat = true) as ->.
    { apply negb_true_iff, Nat.leb_gt. lia. }
    reflexivity.
Qed.

(** X10. When the array has more pixels than the frame has room for,
    [render] throws a [RangeError] out of [writeUInt32LE]: the array has
    already been remapped and converted, [beforeRender] has been emitted,
    but the bindings are not called and no [render] event is emitted. *)
Theorem render_too_long (data b : list Z) (m : Module) :
  _isInitialized m = true -> _outputBuffer m = Some b ->
  (length b < 4 * length data)%nat -> Forall is_uint32 data ->
  exists (m' : Module) (b' : list Z),
    render data m = (m', transformed m data, Throw JsRangeError) /\
    _outputBuffer m' = Some b' /\ length b' = length b /\
    bindings_calls m' = bindings_calls m /\
    emitted m' = emitted m ++ [("beforeRender", data)].
Proof.
  intros Hinit Hbuf Hlen Hwf.
  destruct (encode_loop_overflow (length (transformed m data)) 0 (transformed m data) b)
    as (b' & He & Hl).
  { apply transformed_uint32, Hwf. }
  { lia. }
  { rewrite transformed_length. lia. }
  { rewrite transformed_length. lia. }
  exists (set_outputBuffer (Some b') (emit "beforeRender" data m)), b'.
  split; [|repeat split; exact Hl].
  unfold render. rewrite Hinit. cbv zeta. simpl negb. cbv iota.
  change (_indexMapping (emit "beforeRender" data m)) with (_indexMapping m).
  change (_rgbToRgbw (emit "beforeRender" data m)) with (_rgbToRgbw m).
  change (_outputBuffer (emit "beforeRender" data m)) with (_outputBuffer m).
  fold (transformed m data). rewrite Hbuf. unfold encode. rewrite He. reflexivity.
Qed.

Lemma render_too_long_witness :
  exists (m' : Module) (b' : list Z),
    render [1; 2; 3] (init None 0x7fffffff (F64.of_Z 2) (JSObject []) fresh).1
    = (m', [1; 2; 3], Throw JsRangeError) /\
    _outputBuffer m' = Some b' /\ length b' = 8%nat /\
    bindings_calls m' = [Binit (F64.of_Z 2) (JSObject [])] /\
    emitted m' = [("beforeRender", [1; 2; 3])].
Proof.
  refine (render_too_long [1; 2; 3] (Buffer_alloc 8)
            (init None 0x7fffffff (F64.of_Z 2) (JSObject []) fresh).1 _ _ _ _).
  - reflexivity.
  - reflexivity.
  - simpl. lia.
  - repeat constructor; unfold is_uint32; lia.
Defined.

(** X11. When the array has fewer pixels than the frame has room for,
    [render] completes and hands the whole frame to the bindings: the first
    [4 * data.length] bytes hold the pixels of the array, the bytes behind
    them are those the frame held before the call. *)
Theorem render_short_keeps_tail (data b : list Z) (m : Module) :
  _isInitialized m = true -> _outputBuffer m = Some b ->
  (4 * length data <= length b)%nat -> Forall is_uint32 data ->
  exists (m' : Module) (frame : list Z),
    render data m = (m', transformed m data, Normal tt) /\
    _outputBuffer m' = Some frame /\ length frame = length b /\
    last (bindings_calls m') = Some (Brender (Some frame)) /\
    (forall (i k : nat) (w : Z),
        (k < 4)%nat -> transformed m data !! i = Some w ->
        frame !! (4 * i + k)%nat = Some (byte_of (Z.of_nat k) w)) /\
    (forall j : nat, (4 * length data <= j)%nat -> frame !! j = b !! j).
Proof.
  intros Hinit Hbuf Hlen Hwf.
  destruct (encode_loop_ok (length (transformed m data)) 0 (transformed m data) b)
    as (frame & He & Hl & Hbytes & Hrest).
  { apply transformed_uint32, Hwf. }
  { lia. }
  { rewrite transformed_length. lia. }
  exists (emit "render" (transformed m data)
            (call_bindings (Brender (Some frame))
               (set_outputBuffer (Some frame) (emit "beforeRender" data m)))), frame.
  split; [|split; [reflexivity|split; [exact Hl|split; [apply last_snoc|split]]]].
  - unfold render. rewrite Hinit. cbv zeta. simpl negb. cbv iota.
    change (_indexMapping (emit "beforeRender" data m)) with (_indexMapping m).
    change (_rgbToRgbw (emit "beforeRender" data m)) with (_rgbToRgbw m).
    change (_outputBuffer (emit "beforeRender" data m)) with (_outputBuffer m).
    fold (transformed m data). rewrite Hbuf. unfold encode. rewrite He. reflexivity.
  - intros i k w Hk Hi. apply Hbytes; [|exact Hk|exact Hi].
    pose proof (lookup_lt_Some _ _ _ Hi). lia.
  - intros j Hj. apply Hrest. rewrite transformed_length. lia.
Qed.

Lemma render_short_keeps_tail_witness :
  exists (m' : Module) (frame : list Z),
    render [0x00000001] (init None 0x7fffffff (F64.of_Z 2) (JSObject []) fresh).1
    = (m', [0x00000001], Normal tt) /\
    _outputBuffer m' = Some frame /\ length frame = 8%nat /\
    last (bindings_calls m') = Some (Brender (Some frame)).
Proof.
  destruct (render_short_keeps_tail [0x00000001] (Buffer_alloc 8)
              (init None 0x7fffffff (F64.of_Z 2) (JSObject []) fresh).1)
    as (m' & frame & H1 & H2 & H3 & H4 & _).
  - reflexivity.
  - reflexivity.
  - simpl. lia.
  - repeat constructor; unfold is_uint32; lia.
  - exists m', frame. repeat split; assumption.
Defined.

(** X12. [render] never changes the number of pixels of the array it is
    given, whatever the state and however it completes. *)
Theorem render_keeps_length (data : list Z) (m : Module) :
  length (render data m).1.2 = length data.
Proof.
  destruct (_isInitialized m) eqn:Hinit.
  - rewrite render_data by exact Hinit. apply transformed_length.
  - unfold render. rewrite Hinit. reflexivity.
Qed.

(** X13. The frame determines the pixels: two arrays of unsigned 32-bit
    words whose encodings into a frame of the same size give the same
    bytes are equal. *)
Theorem encode_injective (d1 d2 b frame : list Z) :
  Forall is_uint32 d1 -> Forall is_uint32 d2 ->
  length b = (4 * length d1)%nat -> length d2 = length d1 ->
  encode d1 (Some b) = (Some frame, Normal tt) ->
  encode d2 (Some b) = (Some frame, Normal tt) ->
  d1 = d2.
Proof.
  intros Hw1 Hw2 Hb Hlen He1 He2.
  destruct (encode_ok d1 b Hw1 Hb) as (f1 & He1' & _ & H1).
  destruct (encode_ok d2 b Hw2 ltac:(lia)) as (f2 & He2' & _ & H2).
  assert (f1 = frame) as -> by congruence.
  assert (f2 = frame) as -> by congruence.
  apply list_eq. intros i.
  destruct (d1 !! i) as [w1|] eqn:E1.
  - destruct (lookup_lt_is_Some_2 d2 i) as [w2 E2].
    { pose proof (lookup_lt_Some _ _ _ E1). lia. }
    rewrite E2. f_equal.
    rewrite (word_of_bytes w1 (Forall_lookup_1 _ _ _ _ Hw1 E1)).
    rewrite (word_of_bytes w2 (Forall_lookup_1 _ _ _ _ Hw2 E2)).
    pose proof (H1 i 0%nat w1 ltac:(lia) E1) as A0. pose proof (H2 i 0%nat w2 ltac:(lia) E2) as B0.
    pose proof (H1 i 1%nat w1 ltac:(lia) E1) as A1. pose proof (H2 i 1%nat w2 ltac:(lia) E2) as B1.
    pose proof (H1 i 2%nat w1 ltac:(lia) E1) as A2. pose proof (H2 i 2%nat w2 ltac:(lia) E2) as B2.
    pose proof (H1 i 3%nat w1 ltac:(lia) E1) as A3. pose proof (H2 i 3%nat w2 ltac:(lia) E2) as B3.
    rewrite A0 in B0. rewrite A1 in B1. rewrite A2 in B2. rewrite A3 in B3.
    injection B0 as B0. injection B1 as B1. injection B2 as B2. injection B3 as B3.
    change (Z.of_nat 0) with 0 in B0. change (Z.of_nat 1) with 1 in B1.
    change (Z.of_nat 2) with 2 in B2. change (Z.of_nat 3) with 3 in B3.
    rewrite B0, B1, B2, B3. reflexivity.
  - symmetry. apply lookup_ge_None_2. apply lookup_ge_None_1 in E1. lia.
Qed.

Lemma encode_injective_witness : [0x00010203; 0x04050607] = [0x00010203; 0x04050607].
Proof.
  apply (encode_injective [0x00010203; 0x04050607] [0x00010203; 0x04050607]
           (Buffer_alloc 8) [3; 2; 1; 0; 7; 6; 5; 4]).
  - repeat constructor; unfold is_uint32; lia.
  - repeat constructor; unfold is_uint32; lia.
  - reflexivity.
  - reflexivity.
  - reflexivity.
  - reflexivity.
Defined.

(** ** Further properties of [setBrightness] and [init] *)

(** X14. With gamma correction on, [setBrightness] takes the requested
    number modulo 256 before the table lookup, so that what the bindings
    receive is a byte whatever was requested; with gamma correction off the
    number is passed on as it is, without clamping. *)
Theorem setBrightness_wraps (brightness : Z) (autoRender : JSValue) (m : Module) :
  _isInitialized m = true ->
  exists m' : Module,
    setBrightness brightness autoRender m = (m', Normal tt) /\
    bindings_calls m' !! length (bindings_calls m) =
      Some (BsetBrightness
              (if _useGammaCorrection m then gamma_at (brightness mod 256) else brightness)) /\
    (_useGammaCorrection m = true -> is_byte (gamma_at (brightness mod 256))).
Proof.
  intros Hinit.
  destruct m as [isInit mapping buf useGamma rgbw calls events].
  cbn [_isInitialized] in Hinit. subst isInit.
  unfold setBrightness, bind, read, throw, modify, ret.
  cbn [negb _isInitialized _useGammaCorrection _outputBuffer].
  rewrite and_255. change (2 ^ 8) with 256.
  destruct (strict_equals autoRender (JSBool false)); cbn [negb];
    eexists; (split; [reflexivity|]);
    cbn [bindings_calls call_bindings];
    (split; [|intros _; apply gamma_at_range]).
  - rewrite lookup_app_r by lia. rewrite Nat.sub_diag. reflexivity.
  - rewrite lookup_app_l by (rewrite length_app; simpl; lia).
    rewrite lookup_app_r by lia. rewrite Nat.sub_diag. reflexivity.
Qed.

Lemma setBrightness_wraps_witness :
  exists m' : Module,
    setBrightness (-1) (JSBool false)
      (init None 0x7fffffff (F64.of_Z 1)
         (JSObject [("gammaCorrection", JSBool true)]) fresh).1
    = (m', Normal tt) /\
    bindings_calls m' !! 1%nat = Some (BsetBrightness 255).
Proof.
  destruct (setBrightness_wraps (-1) (JSBool false)
              (init None 0x7fffffff (F64.of_Z 1)
                 (JSObject [("gammaCorrection", JSBool true)]) fresh).1)
    as (m' & H1 & H2 & _).
  - reflexivity.
  - exists m'. split; [exact H1|exact H2].
Defined.

(** X15. With the stub in place of the native bindings
    [STRIP_TYPES.SK6812W] is [undefined]: an options object that asks for
    [rgbToRgbw] and has no [strip_type] then turns the conversion on, since
    [undefined === undefined].  With a numeric constant an options object
    without [strip_type] never turns it on.  (For every [numLeds] whose
    frame is allocated.) *)
Theorem rgbToRgbw_flag_without_strip_type
  (kMaxLength : Z) (numLeds : F64.t) (props : list (string * JSValue))
  (m : Module) (b : list Z) :
  Buffer_new kMaxLength (frame_size numLeds) = Normal b ->
  assoc "strip_type" props = None ->
  _rgbToRgbw (init None kMaxLength numLeds (JSObject props) m).1
  = option_enabled (JSObject props) "rgbToRgbw" /\
  (forall n : Z,
      _rgbToRgbw (init (Some n) kMaxLength numLeds (JSObject props) m).1 = false).
Proof.
  intros Hb Hst. rewrite (init_result _ _ _ _ _ b Hb) by discriminate. split.
  - cbn [_rgbToRgbw fst]. unfold strip_type_is_SK6812W, prop_value, get_prop.
    rewrite Hst. cbn. apply andb_true_r.
  - intros n. rewrite (init_result _ _ _ _ _ b Hb) by discriminate.
    cbn [_rgbToRgbw fst]. unfold strip_type_is_SK6812W, prop_value, get_prop.
    rewrite Hst. cbn. apply andb_false_r.
Qed.

Lemma rgbToRgbw_flag_without_strip_type_witness :
  _rgbToRgbw (init None 0x7fffffff (F64.of_Z 1)
                (JSObject [("rgbToRgbw", JSBool true)]) fresh).1
  = option_enabled (JSObject [("rgbToRgbw", JSBool true)]) "rgbToRgbw".
Proof.
  refine (proj1 (rgbToRgbw_flag_without_strip_type 0x7fffffff (F64.of_Z 1)
                   [("rgbToRgbw", JSBool true)] fresh (Buffer_alloc 4) _ _)).
  - reflexivity.
  - reflexivity.
Defined.

(** ** The lifecycle over sequences of calls *)

Lemma encode_loop_total (n : nat) :
  forall (i : nat) (data b : list Z),
    (i + n <= length data)%nat ->
    exists (b' : list Z) (c : Completion unit),
      encode_loop n i data (Some b) = (Some b', c) /\ length b' = length b /\
      (c = Normal tt \/ c = Throw JsRangeError).
Proof.
  induction n as [|n IH]; intros i data b Hi; cbn [encode_loop].
  - exists b, (Normal tt). auto.
  - destruct (lookup_lt_is_Some_2 data i ltac:(lia)) as [v Hv]. rewrite Hv.
    unfold writeUInt32LE.
    destruct (negb _); [exists b, (Throw JsRangeError); auto|].
    destruct (negb _); [exists b, (Throw JsRangeError); auto|].
    match goal with |- context [encode_loop n (S i) data (Some ?b1)] =>
      destruct (IH (S i) data b1 ltac:(lia)) as (b' & c & -> & Hl & Hc) end.
    exists b', c. split; [reflexivity|]. split; [|exact Hc].
    rewrite Hl, !length_insert. reflexivity.
Qed.

Lemma Forall_snoc_call (calls : list BindingCall) (c : BindingCall) :
  Forall (fun c => c <> Brender None) calls -> c <> Brender None ->
  Forall (fun c => c <> Brender None) (calls ++ [c]).
Proof.
  intros H Hc. apply Forall_app. split; [exact H|]. constructor; [exact Hc|constructor].
Qed.

Lemma run_call_invariant (SK6812W : option Z) (kMaxLength : Z) (c : Call) (m : Module) :
  kMaxLength < 2 ^ 53 -> init_with_count kMaxLength c ->
  frame_invariant m -> frame_invariant (run_call SK6812W kMaxLength c m).
Proof.
  intros HK Hc (Hinit & Huninit & Hcalls).
  destruct c as [numLeds o|mp|data|br r|]; cbn [run_call].
  - destruct Hc as (n & -> & Hn).
    pose proof (Buffer_new_count kMaxLength n (conj Hn HK)) as Hb.
    destruct o;
      first [rewrite (init_null _ _ _ _ _ Hb)
            | rewrite (init_result _ _ _ _ _ _ Hb) by discriminate];
      (split; [intros _; eexists; split; [reflexivity|];
               unfold Buffer_alloc; rewrite length_replicate;
               rewrite Nat.mul_comm; apply Nat.Div0.mod_mul
              |split; [discriminate|]]);
      cbn [bindings_calls set_outputBuffer set_isInitialized fst];
      try exact Hcalls; (apply Forall_snoc_call; [exact Hcalls|discriminate]).
  - exact (conj Hinit (conj Huninit Hcalls)).
  - unfold render. destruct (_isInitialized m) eqn:Hi; cbn [negb].
    + destruct (Hinit eq_refl) as (b & Hb & Hdiv). cbv zeta.
      change (_outputBuffer (emit "beforeRender" data m)) with (_outputBuffer m).
      rewrite Hb. unfold encode.
      match goal with |- context [encode_loop (length ?d) 0 ?d (Some b)] =>
        destruct (encode_loop_total (length d) 0 d b ltac:(lia)) as (b' & c & -> & Hl & Hc') end.
      destruct Hc' as [-> | ->]; cbn [fst snd];
        (split; [intros _; exists b'; split; [reflexivity|rewrite Hl; exact Hdiv]
                |split; [cbn; rewrite Hi; discriminate|]]);
        cbn [bindings_calls set_outputBuffer emit call_bindings _outputBuffer];
        try exact Hcalls.
      apply Forall_snoc_call; [exact Hcalls|discriminate].
    + cbn [fst]. unfold frame_invariant. rewrite Hi.
      exact (conj Hinit (conj Huninit Hcalls)).
  - unfold setBrightness, bind, read, throw, modify, ret.
    destruct (_isInitialized m) eqn:Hi; cbn [negb].
    + destruct (Hinit eq_refl) as (b & Hb & Hdiv).
      destruct (strict_equals r (JSBool false)); cbn [negb fst];
        (split; [intros _; exists b; split; [exact Hb|exact Hdiv]
                |split; [cbn; rewrite Hi; discriminate|]]);
        cbn [bindings_calls call_bindings _outputBuffer]; rewrite ?Hb;
        repeat (apply Forall_snoc_call; [|discriminate]); exact Hcalls.
    + cbn [fst]. unfold frame_invariant. rewrite Hi.
      exact (conj Hinit (conj Huninit Hcalls)).
  - split; [discriminate|]. split; [reflexivity|].
    cbn. apply Forall_snoc_call; [exact Hcalls|discriminate].
Qed.

Lemma run_invariant (SK6812W : option Z) (kMaxLength : Z) (calls : list Call) :
  kMaxLength < 2 ^ 53 -> Forall (init_with_count kMaxLength) calls ->
  forall m : Module, frame_invariant m -> frame_invariant (run SK6812W kMaxLength calls m).
Proof.
  intros HK. unfold run.
  induction calls as [|c calls IH]; intros Hc m Hm; cbn [fold_left].
  - exact Hm.
  - inversion Hc as [|c' calls' Hhead Htail]; subst.
    apply IH; [exact Htail|]. apply run_call_invariant; assumption.
Qed.

Lemma frame_invariant_fresh : frame_invariant fresh.
Proof. split; [discriminate|]. split; [reflexivity|constructor]. Qed.

(** X16. Whatever sequence of calls of the exported functions is made on
    the freshly loaded module, whether they return or throw, as long as
    every [init] is given a count of LEDs whose frame the buffer limit
    admits: the frame exists exactly while the module is initialized, its
    length is a multiple of 4, and the bindings have never been handed
    [null] to render. *)
Theorem frame_invariant_always (SK6812W : option Z) (kMaxLength : Z) (calls : list Call) :
  kMaxLength < 2 ^ 53 ->
  Forall (init_with_count kMaxLength) calls ->
  frame_invariant (run SK6812W kMaxLength calls fresh).
Proof. intros HK Hc. apply run_invariant; [exact HK|exact Hc|apply frame_invariant_fresh]. Qed.

Lemma frame_invariant_always_witness :
  frame_invariant
    (run None 0x7fffffff
       [CallRender [1]; CallInit (F64.of_Z 2) JSNull; CallRender [1; 2; 3];
        CallSetBrightness 300 JSUndefined; CallReset; CallSetBrightness 1 JSUndefined]
       fresh).
Proof.
  apply frame_invariant_always; [lia|].
  repeat constructor. exists 2%nat. split; [reflexivity|lia].
Defined.

(** X17. After any such sequence of calls, [render] completes normally
    or throws the error of an operation before initialization or a
    [RangeError] of the framing loop; it does not fail on a missing
    frame. *)
Theorem render_outcomes
  (SK6812W : option Z) (kMaxLength : Z) (calls : list Call) (data : list Z) :
  kMaxLength < 2 ^ 53 ->
  Forall (init_with_count kMaxLength) calls ->
  let c := (render data (run SK6812W kMaxLength calls fresh)).2 in
  c = Normal tt \/ c = Throw not_initialized_render \/ c = Throw JsRangeError.
Proof.
  intros HK Hc c. subst c.
  destruct (run_invariant SK6812W kMaxLength calls HK Hc fresh frame_invariant_fresh)
    as (Hinit & _ & _).
  generalize dependent (run SK6812W kMaxLength calls fresh). intros m Hinit.
  unfold render. destruct (_isInitialized m) eqn:Hi; cbn [negb]; [|auto].
  destruct (Hinit eq_refl) as (b & Hb & _). cbv zeta.
  change (_outputBuffer (emit "beforeRender" data m)) with (_outputBuffer m).
  rewrite Hb. unfold encode.
  match goal with |- context [encode_loop (length ?d) 0 ?d (Some b)] =>
    destruct (encode_loop_total (length d) 0 d b ltac:(lia)) as (b' & c & -> & _ & Hc') end.
  destruct Hc' as [-> | ->]; cbn; auto.
Qed.

Lemma render_outcomes_witness :
  let c :=
    (render [1; 2; 3]
       (run None 0x7fffffff [CallInit (F64.of_Z 2) (JSObject []); CallRender [7]] fresh)).2 in
  c = Normal tt \/ c = Throw not_initialized_render \/ c = Throw JsRangeError.
Proof.
  apply render_outcomes; [lia|].
  repeat constructor. exists 2%nat. split; [reflexivity|lia].
Defined.

(** [render] on a module that is initialized and has no frame. *)
Lemma render_without_frame (data : list Z) (m : Module) :
  _isInitialized m = true -> _outputBuffer m = None ->
  render data m =
  match data with
  | [] =>
      (emit "render" []
         (call_bindings (Brender None) (set_outputBuffer None (emit "beforeRender" [] m))),
       [], Normal tt)
  | _ :: _ =>
      (set_outputBuffer None (emit "beforeRender" data m), transformed m data,
       Throw JsTypeError)
  end.
Proof.
  intros Hinit Hbuf.
  unfold render. rewrite Hinit. cbv zeta. simpl negb. cbv iota.
  change (_indexMapping (emit "beforeRender" data m)) with (_indexMapping m).
  change (_rgbToRgbw (emit "beforeRender" data m)) with (_rgbToRgbw m).
  change (_outputBuffer (emit "beforeRender" data m)) with (_outputBuffer m).
  fold (transformed m data). rewrite Hbuf. unfold encode.
  pose proof (transformed_length m data) as Hl.
  destruct data as [|v data].
  - destruct (transformed m []) as [|x t]; [reflexivity|discriminate Hl].
  - cbn [length] in Hl. rewrite Hl. reflexivity.
Qed.

(** X19. A size that [new Buffer] rejects, such as that of a negative
    count of LEDs or of [NaN], makes [init] throw a [RangeError] after it
    has set [_isInitialized] and before anything else: the frame and the
    flags stay as they were and the bindings are not initialized.  On a
    module that had no frame, the guard of [render] and [setBrightness]
    then lets the calls through: [render] of an empty array and
    [setBrightness] hand [null] to [bindings.render], and [render] of an
    array that is not empty throws a [TypeError] at the first pixel. *)
Theorem init_rejected_size_leaves_flag
  (SK6812W : option Z) (kMaxLength : Z) (numLeds : F64.t) (options : JSValue)
  (m : Module) (e : Exception) :
  Buffer_new kMaxLength (frame_size numLeds) = Throw e ->
  let m' := (init SK6812W kMaxLength numLeds options m).1 in
  (init SK6812W kMaxLength numLeds options m).2 = Throw JsRangeError /\
  m' = set_isInitialized true m /\
  (_outputBuffer m = None ->
   (render [] m').2 = Normal tt /\
   last (bindings_calls (render [] m').1.1) = Some (Brender None) /\
   (forall (v : Z) (data : list Z),
       (render (v :: data) m').2 = Throw JsTypeError /\
       bindings_calls (render (v :: data) m').1.1 = bindings_calls m) /\
   (forall (brightness : Z) (autoRender : JSValue),
       strict_equals autoRender (JSBool false) = false ->
       (setBrightness brightness autoRender m').2 = Normal tt /\
       last (bindings_calls (setBrightness brightness autoRender m').1)
       = Some (Brender None))) /\
  (forall K : Z, Buffer_new K (frame_size (F64.of_Z (-1))) = Throw JsRangeError) /\
  (forall K : Z, Buffer_new K (frame_size S754_nan) = Throw JsRangeError).
Proof.
  intros Hb m'. subst m'.
  rewrite (init_rejected _ _ _ _ _ e Hb). cbn [fst snd].
  split; [f_equal; exact (Buffer_new_throws _ _ _ Hb)|].
  split; [reflexivity|].
  split; [|split; intros K; reflexivity].
  intros Hnone.
  assert (Hi : _isInitialized (set_isInitialized true m) = true) by reflexivity.
  assert (Hn : _outputBuffer (set_isInitialized true m) = None) by exact Hnone.
  split; [|split; [|split]].
  - rewrite (render_without_frame [] _ Hi Hn). reflexivity.
  - rewrite (render_without_frame [] _ Hi Hn). cbn. apply last_snoc.
  - intros v data. rewrite (render_without_frame (v :: data) _ Hi Hn).
    split; reflexivity.
  - intros brightness autoRender Hr.
    clear Hi Hn. destruct m as [isInit mapping buf useGamma rgbw calls events].
    cbn [_outputBuffer] in Hnone. subst buf.
    unfold setBrightness, bind, read, throw, modify, ret.
    cbn [set_isInitialized _isInitialized _indexMapping _outputBuffer
         _useGammaCorrection _rgbToRgbw bindings_calls emitted negb].
    rewrite Hr.
    cbn [negb fst snd call_bindings _isInitialized _indexMapping _outputBuffer
         _useGammaCorrection _rgbToRgbw bindings_calls emitted].
    split; [reflexivity|apply last_snoc].
Qed.

Lemma init_rejected_size_leaves_flag_witness :
  (render [0x00ff0000] (init None 0x7fffffff (F64.of_Z (-1)) (JSObject []) fresh).1).2
  = Throw JsTypeError.
Proof.
  refine (proj1 (proj1 (proj2 (proj2 (proj1 (proj2 (proj2
            (init_rejected_size_leaves_flag None 0x7fffffff (F64.of_Z (-1)) (JSObject [])
               fresh JsRangeError _))) _))) 0x00ff0000 [])).
  - reflexivity.
  - reflexivity.
Defined.

(** A count that is not an integer gives a frame that does not hold whole
    pixels: one pixel and a half are six bytes. *)
Example init_fractional_count :
  _outputBuffer (init None 0x7fffffff (F64.of_scaled 3 (-1)) (JSObject []) fresh).1
  = Some [0; 0; 0; 0; 0; 0].
Proof. reflexivity. Qed.

(** A count beyond the limit of the runtime is rejected as well. *)
Example init_oversized_count :
  init None 0x7fffffff (F64.of_Z 0x20000000) (JSObject []) fresh
  = (set_isInitialized true fresh, Throw JsRangeError).
Proof. reflexivity. Qed.

(** ** Loading the bindings *)

(** X18. [getNativeBindings] returns the native module exactly when the
    process runs as root, the architecture is [arm] or the platform is
    [linux] (one of the two is enough), the SoC family read from
    [/proc/cpuinfo] is, in any letter case, [bcm2708], [bcm2835] or
    [bcm2709], and [require] loads the addon; it throws exactly when the
    first two tests pass and either [/proc/cpuinfo] cannot be read or the
    SoC family is one of the three and [require] throws; whenever it
    returns the stub it has printed one warning, and otherwise none. *)
Theorem getNativeBindings_decision (process : Process) :
  let root := match process_getuid process with Some 0 => true | _ => false end in
  let plausible :=
    String.eqb (process_arch process) "arm" || String.eqb (process_platform process) "linux" in
  let known :=
    match cpuinfo_socFamily process with
    | Normal (Some soc) =>
        let s := toLowerCase soc in
        String.eqb s "bcm2708" || String.eqb s "bcm2835" || String.eqb s "bcm2709"
    | _ => false
    end in
  ((getNativeBindings process).2 = Normal NativeBindings <->
   root && plausible && known = true /\ binding_load process = Normal tt) /\
  ((exists e, (getNativeBindings process).2 = Throw e) <->
   root && plausible = true /\
   ((exists e, cpuinfo_socFamily process = Throw e) \/
    (known = true /\ exists e, binding_load process = Throw e))) /\
  ((getNativeBindings process).2 = Normal StubBindings ->
   exists w, (getNativeBindings process).1 = [w]) /\
  ((getNativeBindings process).2 <> Normal StubBindings ->
   (getNativeBindings process).1 = []).
Proof.
  intros root plausible known. subst root plausible known.
  unfold getNativeBindings, raspberryVersion.
  destruct process as [getuid arch platform cpu load].
  cbn [process_getuid process_arch process_platform cpuinfo_socFamily binding_load].
  assert (Hsolve : forall (P Q R S : Prop), P -> Q -> R -> S -> P /\ Q /\ R /\ S)
    by (intros; tauto).
  destruct getuid as [[|uid|uid]|]; cbn [Z.eqb negb andb];
    destruct (String.eqb arch "arm"), (String.eqb platform "linux"); cbn [negb andb orb];
    try destruct cpu as [[soc|]|ce]; cbn [Z.eqb];
    try (destruct (String.eqb (toLowerCase soc) "bcm2708");
         [|destruct (String.eqb (toLowerCase soc) "bcm2835");
           [|destruct (String.eqb (toLowerCase soc) "bcm2709")]]);
    cbn [Z.eqb orb];
    try destruct load as [[]|le]; cbn [fst snd];
    (apply Hsolve;
     [split; [intros H; first [discriminate H|split; reflexivity]
             |intros [H1 H2]; first [discriminate H1|discriminate H2|reflexivity]]
     |split; [intros [e' He'];
              first [discriminate He'
                    |split; [reflexivity
                            |first [left; eexists; reflexivity
                                   |right; split; [reflexivity|eexists; reflexivity]]]]
             |intros [H1 H23];
              first [discriminate H1
                    |destruct H23 as [[e' He']|[H2 [e' He']]];
                     first [discriminate He'|discriminate H2|eexists; reflexivity]]]
     |intros H; first [discriminate H|eexists; reflexivity]
     |intros H; first [reflexivity|exfalso; apply H; reflexivity]]).
Qed.

(** On a 64-bit Raspberry Pi the architecture is [arm64], not [arm]; the
    platform test lets it pass because the platform is [linux]. *)
Example getNativeBindings_arm64 :
  getNativeBindings (mkProcess (Some 0) "arm64" "linux" (Normal (Some "BCM2835")) (Normal tt))
  = ([], Normal NativeBindings).
Proof. reflexivity. Qed.

Example getNativeBindings_not_root :
  getNativeBindings (mkProcess (Some 1000) "arm" "linux" (Normal (Some "BCM2835")) (Normal tt))
  = ([WarnNotRoot], Normal StubBindings).
Proof. reflexivity. Qed.

(** When the addon was not built, loading the module fails on the target
    platform. *)
Example getNativeBindings_addon_missing :
  getNativeBindings
    (mkProcess (Some 0) "arm" "linux" (Normal (Some "BCM2709"))
       (Throw (JsError "Cannot find module")))
  = ([], Throw (JsError "Cannot find module")).
Proof. reflexivity. Qed.

